(** * simple-log-analyzer: a shallow embedding of the parsing and aggregation core

    The development follows the layout of the repository:

    - [Py]: the pieces of the Python runtime the sources rely on ([str]
      methods, [int()], insertion-ordered dictionaries);
    - [Re]: the backtracking semantics of the [re] patterns;
    - [Csv]: the state machine of [csv.reader] under the default dialect;
    - [Stats]: [ParseStats] of [parsers/__init__.py];
    - [Gen]: the effects of a [parse] generator (statistics, yielded records,
      progress callback, exceptions);
    - [Meraki], [UniFi], [WatchGuard], [PaloAlto]: the four vendor parsers;
    - [Frame] and [Cli]: the table model and the three [collect_*] operations
      of [cli.py].

    A character is its code point; the text handled here is the text whose code
    points are below 256, so a line is a [string] of the standard library. *)

From Stdlib Require Import List String Ascii ZArith NArith Lia Bool Arith.
From Stdlib Require Import DecimalString Uint63 Floats Permutation Sorted.
Import ListNotations.
Open Scope string_scope.
Open Scope Z_scope.

(* ------------------------------------------------------------------------- *)
(** * Python runtime                                                          *)
(* ------------------------------------------------------------------------- *)

Module Py.

Definition code (c : ascii) : N := N_of_ascii c.

Definition in_range (lo hi : N) (c : ascii) : bool :=
  (N.leb lo (code c) && N.leb (code c) hi)%bool.

(** [str.isspace] on one character, also the class stripped by [str.strip]
    and matched by [\s]: U+0009..U+000D, U+001C..U+0020, U+0085, U+00A0. *)
Definition isspace (c : ascii) : bool :=
  (in_range 9 13 c || in_range 28 32 c || N.eqb (code c) 133
   || N.eqb (code c) 160)%bool.

(** Decimal digits below U+0100 are the ASCII ones. *)
Definition isdecimal (c : ascii) : bool := in_range 48 57 c.

(** [str.isalnum] on one character, for code points below 256. *)
Definition isalnum (c : ascii) : bool :=
  (in_range 48 57 c || in_range 65 90 c || in_range 97 122 c
   || N.eqb (code c) 170 || in_range 178 179 c || N.eqb (code c) 181
   || in_range 185 186 c || in_range 188 190 c || in_range 192 214 c
   || in_range 216 246 c || in_range 248 255 c)%bool.

Definition is_char (a : ascii) (c : ascii) : bool := Ascii.eqb a c.

Definition newline : ascii := ascii_of_nat 10.

(** [len(s)] *)
Definition len (s : string) : Z := Z.of_nat (String.length s).

(** Number of bytes of the UTF-8 encoding of [s]: code points below U+0080
    take one byte, the others (below U+0100) two. *)
Fixpoint utf8_length (s : string) : Z :=
  match s with
  | EmptyString => 0
  | String c s' => (if N.ltb (code c) 128 then 1 else 2) + utf8_length s'
  end.

(** [s.lstrip(chars)] with the characters to strip given as a class. *)
Fixpoint lstrip_with (p : ascii -> bool) (s : string) : string :=
  match s with
  | EmptyString => EmptyString
  | String c s' => if p c then lstrip_with p s' else s
  end.

(** [s.rstrip(chars)] *)
Fixpoint rstrip_with (p : ascii -> bool) (s : string) : string :=
  match s with
  | EmptyString => EmptyString
  | String c s' =>
      match rstrip_with p s' with
      | EmptyString => if p c then EmptyString else String c EmptyString
      | r => String c r
      end
  end.

(** [s.lstrip()], [s.rstrip()], [s.strip()] *)
Definition lstrip (s : string) : string := lstrip_with isspace s.
Definition rstrip (s : string) : string := rstrip_with isspace s.
Definition strip (s : string) : string := lstrip (rstrip s).

(** [s.startswith(p)] and [s.startswith((p1, ..., pn))] *)
Definition startswith (s p : string) : bool := String.prefix p s.
Definition startswith_any (s : string) (ps : list string) : bool :=
  existsb (startswith s) ps.

(** [sub in s] *)
Fixpoint contains (sub s : string) : bool :=
  (String.prefix sub s
   || match s with
      | EmptyString => false
      | String _ s' => contains sub s'
      end)%bool.

(** [any(w in s for w in ws)] *)
Definition any_in (ws : list string) (s : string) : bool :=
  existsb (fun w => contains w s) ws.

(** [s.lower()] for code points below 256: the upper-case letters are
    A..Z, U+00C0..U+00D6 and U+00D8..U+00DE, each 32 below its lower case. *)
Definition lower_char (c : ascii) : ascii :=
  if (in_range 65 90 c || in_range 192 214 c || in_range 216 222 c)%bool
  then ascii_of_N (code c + 32) else c.

Fixpoint lower (s : string) : string :=
  match s with
  | EmptyString => EmptyString
  | String c s' => String (lower_char c) (lower s')
  end.

(** The first [n] characters, [s[:n]] for [n >= 0], and [s[n:]]. *)
Fixpoint take (n : nat) (s : string) : string :=
  match n, s with
  | S n', String c s' => String c (take n' s')
  | _, _ => EmptyString
  end.

Fixpoint drop (n : nat) (s : string) : string :=
  match n, s with
  | S n', String _ s' => drop n' s'
  | _, _ => s
  end.

(** ** Text files

    [path.open("r", ...)] reads in universal newlines mode: the line
    endings CR LF and CR come out as a newline.  Iterating over the file
    gives its lines, each with its newline, the last one possibly without.
    A file is given by its decoded text. *)
Definition carriage_return : ascii := ascii_of_nat 13.

Fixpoint universal_newlines (text : string) : string :=
  match text with
  | EmptyString => EmptyString
  | String c rest =>
      if is_char carriage_return c then
        String newline
               match rest with
               | String c' rest' =>
                   if is_char newline c' then universal_newlines rest'
                   else universal_newlines rest
               | EmptyString => EmptyString
               end
      else String c (universal_newlines rest)
  end.

(** [lines_from line text]: the lines of [text], the first one continuing
    the unfinished [line]. *)
Fixpoint lines_from (line : string) (text : string) : list string :=
  match text with
  | EmptyString =>
      match line with EmptyString => [] | _ => [line] end
  | String c rest =>
      if is_char newline c
      then (line ++ String newline EmptyString)%string
           :: lines_from EmptyString rest
      else lines_from (line ++ String c EmptyString)%string rest
  end.

Definition open_text (text : string) : list string :=
  lines_from EmptyString (universal_newlines text).

(** [all(p(c) for c in s)] and [s.isspace()] *)
Fixpoint all_chars (p : ascii -> bool) (s : string) : bool :=
  match s with
  | EmptyString => true
  | String c s' => (p c && all_chars p s')%bool
  end.

Definition str_isspace (s : string) : bool :=
  (negb (String.eqb s EmptyString) && all_chars isspace s)%bool.

(** [s.rstrip("\n")], and the strings without a newline character,
    without a carriage return. *)
Definition rstrip_nl (s : string) : string :=
  rstrip_with (is_char newline) s.

Definition no_newline (s : string) : bool :=
  all_chars (fun c => negb (is_char newline c)) s.

Definition no_cr (s : string) : bool :=
  all_chars (fun c => negb (is_char carriage_return c)) s.

(** A line as a file hands it over: not empty, with at most one newline,
    at its end; [body] is the line without it. *)
Definition file_line (raw_line body : string) : Prop :=
  no_newline body = true
  /\ (raw_line = (body ++ String newline EmptyString)%string
      \/ (raw_line = body /\ body <> EmptyString)).

(** [str(n)] for an [int]. *)
Definition str_int (n : Z) : string := NilZero.string_of_int (Z.to_int n).

(** [str(n)] padded with zeros on the left up to [width] characters, for
    [n >= 0] (the [%02d] of [strftime] and of [isoformat]). *)
Fixpoint zeros (n : nat) : string :=
  match n with O => EmptyString | S n' => String "0" (zeros n') end.

Definition zfill (width : nat) (n : Z) : string :=
  let s := str_int n in
  (zeros (width - String.length s) ++ s)%string.

(** [s.replace(a, b)] for single characters. *)
Fixpoint replace_char (a b : ascii) (s : string) : string :=
  match s with
  | EmptyString => EmptyString
  | String c s' =>
      String (if is_char a c then b else c) (replace_char a b s')
  end.

(** [s.title()] for the letters A..Z and a..z: a letter that follows a
    letter is lowered, any other letter is raised. *)
Definition is_ascii_lower (c : ascii) : bool := in_range 97 122 c.
Definition is_ascii_upper (c : ascii) : bool := in_range 65 90 c.

Fixpoint title_from (previous_is_cased : bool) (s : string) : string :=
  match s with
  | EmptyString => EmptyString
  | String c s' =>
      if is_ascii_lower c then
        String (if previous_is_cased then c else ascii_of_N (code c - 32))
               (title_from true s')
      else if is_ascii_upper c then
        String (if previous_is_cased then ascii_of_N (code c + 32) else c)
               (title_from true s')
      else String c (title_from false s')
  end.

Definition title (s : string) : string := title_from false s.

(** [l[:n]] for a list, and [DataFrame.head(n)]: the first [n] elements, or
    all but the last [-n] when [n] is negative. *)
Definition slice_to {A : Type} (n : Z) (l : list A) : list A :=
  if n >=? 0 then firstn (Z.to_nat n) l
  else firstn (Z.to_nat (Z.of_nat (List.length l) + n)) l.

(** [sum(l)] *)
Definition sum (l : list Z) : Z := fold_right Z.add 0 l.

(** ** Dictionaries

    A [dict] keeps its keys in insertion order; assigning to a key that is
    present keeps its place. *)
Section Dict.
Context {V : Type}.

Definition dict := list (string * V).

Fixpoint get (k : string) (d : dict) : option V :=
  match d with
  | [] => None
  | (k', v) :: d' => if String.eqb k k' then Some v else get k d'
  end.

Definition mem (k : string) (d : dict) : bool :=
  match get k d with Some _ => true | None => false end.

Fixpoint set (k : string) (v : V) (d : dict) : dict :=
  match d with
  | [] => [(k, v)]
  | (k', v') :: d' =>
      if String.eqb k k' then (k', v) :: d' else (k', v') :: set k v d'
  end.

Definition values (d : dict) : list V := map snd d.
Definition keys (d : dict) : list string := map fst d.
End Dict.
Arguments dict : clear implicits.

(** ** [int(s)] for a string argument

    Surrounding white space is skipped (among the characters below U+0080
    only those of C's [isspace]; U+0085 and U+00A0 count as spaces), then
    an optional sign and decimal digits, single underscores allowed between
    digits.  More than 4300 digits are refused.  [None] is [ValueError]. *)
Definition int_space (c : ascii) : bool :=
  (in_range 9 13 c || N.eqb (code c) 32 || N.eqb (code c) 133
   || N.eqb (code c) 160)%bool.

Definition digit_val (c : ascii) : Z := Z.of_N (code c) - 48.

(** [digits acc n prev_digit s]: the value and the number of digits of a
    body made of digits and single inner underscores. *)
Fixpoint int_digits (acc : Z) (n : Z) (prev_digit : bool) (s : string)
  : option (Z * Z) :=
  match s with
  | EmptyString => if prev_digit then Some (acc, n) else None
  | String c s' =>
      if isdecimal c then int_digits (acc * 10 + digit_val c) (n + 1) true s'
      else if (is_char "_" c && prev_digit)%bool
           then int_digits acc n false s'
           else None
  end.

Definition max_str_digits : Z := 4300.

Definition int (s : string) : option Z :=
  let body := rstrip_with int_space (lstrip_with int_space s) in
  let '(neg, body) :=
    match body with
    | String "-" b => (true, b)
    | String "+" b => (false, b)
    | b => (false, b)
    end in
  match int_digits 0 0 false body with
  | Some (v, n) =>
      if n >? max_str_digits then None
      else Some (if neg then - v else v)
  | None => None
  end.

End Py.

(* ------------------------------------------------------------------------- *)
(** * Regular expressions                                                     *)
(* ------------------------------------------------------------------------- *)

Module Re.

(** The fragment of [re] syntax the four parsers use. *)
Inductive regex : Type :=
| Eps                                   (* the empty pattern *)
| Bos                                   (* ^ *)
| Eos                                   (* $ *)
| Chr (p : ascii -> bool)               (* one character of a class *)
| Seq (a b : regex)
| Rep (greedy : bool) (lo : nat) (hi : option nat) (a : regex)
| Grp (name : string) (a : regex).      (* (?P<name>...) *)

(** Character classes. *)
Definition word : ascii -> bool :=
  fun c => (Py.isalnum c || Py.is_char "_" c)%bool.          (* \w *)
Definition digit : ascii -> bool := Py.isdecimal.           (* \d *)
Definition space : ascii -> bool := Py.isspace.             (* \s *)
Definition nonspace : ascii -> bool := fun c => negb (Py.isspace c). (* \S *)
Definition dot : ascii -> bool :=
  fun c => negb (Py.is_char Py.newline c).                  (* . *)
Definition one (a : ascii) : ascii -> bool := Py.is_char a.
Definition none_of (l : list ascii) : ascii -> bool :=
  fun c => negb (existsb (fun a => Py.is_char a c) l).      (* [^...] *)
Definition any_of (l : list (ascii -> bool)) : ascii -> bool :=
  fun c => existsb (fun p => p c) l.                        (* [...] *)

(** Captured groups of a match, by name; a group that took no part in the
    match has no entry ([None] in Python). *)
Definition groups := Py.dict string.

Record match_object := { m_end : nat; m_groups : groups }.

Section Engine.
Context {A : Type}.

(** [run r s pos g k]: match [r] at offset [pos], where [s] is the rest of
    the subject, then continue with [k]; alternatives are tried in the
    order of [re] (greedy: one more repetition first; lazy: stop first),
    and the first success wins. *)
Fixpoint run (r : regex) (s : string) (pos : nat) (g : groups)
         (k : string -> nat -> groups -> option A) {struct r} : option A :=
  match r with
  | Eps => k s pos g
  | Bos => if Nat.eqb pos 0 then k s pos g else None
  | Eos =>
      match s with
      | EmptyString => k s pos g
      | String c EmptyString =>
          if Py.is_char Py.newline c then k s pos g else None
      | _ => None
      end
  | Chr p =>
      match s with
      | String c s' => if p c then k s' (S pos) g else None
      | EmptyString => None
      end
  | Seq a b => run a s pos g (fun s' pos' g' => run b s' pos' g' k)
  | Grp name a =>
      run a s pos g
          (fun s' pos' g' =>
             k s' pos' (Py.set name (Py.take (pos' - pos) s) g'))
  | Rep greedy lo hi a =>
      (fix loop (fuel : nat) (i : nat) (s : string) (pos : nat)
           (g : groups) {struct fuel} : option A :=
         let stop := if Nat.leb lo i then k s pos g else None in
         let more :=
           match fuel with
           | O => None
           | S fuel' =>
               if match hi with Some h => Nat.ltb i h | None => true end
               then run a s pos g
                        (fun s' pos' g' =>
                           if (Nat.ltb pos pos' || Nat.ltb i lo)%bool
                           then loop fuel' (S i) s' pos' g'
                           else None)
               else None
           end in
         if greedy
         then match more with Some x => Some x | None => stop end
         else match stop with Some x => Some x | None => more end)
        (S (String.length s + lo)) 0%nat s pos g
  end.
End Engine.

(** [pattern.match(s)] *)
Definition match_ (r : regex) (s : string) : option match_object :=
  run r s 0%nat [] (fun _ pos g => Some {| m_end := pos; m_groups := g |}).

(** [m[name]] *)
Definition group (m : match_object) (name : string) : option string :=
  Py.get name (m_groups m).

(** [m[name]] for a group every match of the pattern goes through. *)
Definition text (m : match_object) (name : string) : string :=
  match group m name with Some s => s | None => EmptyString end.

(** Abbreviations for the syntax. *)
Definition plus (a : regex) : regex := Rep true 1 None a.         (* a+ *)
Definition star (a : regex) : regex := Rep true 0 None a.         (* a* *)
Definition opt (a : regex) : regex := Rep true 0 (Some 1%nat) a.  (* a? *)
Definition lazy_plus (a : regex) : regex := Rep false 1 None a.   (* a+? *)
Definition times (n : nat) (a : regex) : regex :=
  Rep true n (Some n) a.                                          (* a{n} *)
Definition between (lo hi : nat) (a : regex) : regex :=
  Rep true lo (Some hi) a.                                        (* a{lo,hi} *)

Fixpoint lit (s : string) : regex :=                              (* literal text *)
  match s with
  | EmptyString => Eps
  | String c EmptyString => Chr (one c)
  | String c s' => Seq (Chr (one c)) (lit s')
  end.

Fixpoint seq (l : list regex) : regex :=
  match l with
  | [] => Eps
  | [a] => a
  | a :: l' => Seq a (seq l')
  end.

(** [pattern.finditer(s)]: the matches found scanning [s] from left to
    right, each search resuming where the previous match ended (one
    character further after an empty match).  [run_at] matches at offset
    [pos] of the subject, whose rest is [s]. *)
Definition run_at (r : regex) (s : string) (pos : nat) : option match_object :=
  run r s pos [] (fun _ pos' g => Some {| m_end := pos'; m_groups := g |}).

Fixpoint finditer_from (fuel : nat) (r : regex) (s : string) (pos : nat)
  : list match_object :=
  match fuel with
  | O => []
  | S fuel' =>
      match run_at r s pos with
      | Some m =>
          if Nat.ltb pos (m_end m)
          then m :: finditer_from fuel' r (Py.drop (m_end m - pos) s) (m_end m)
          else
            m :: match s with
                 | EmptyString => []
                 | String _ s' => finditer_from fuel' r s' (S pos)
                 end
      | None =>
          match s with
          | EmptyString => []
          | String _ s' => finditer_from fuel' r s' (S pos)
          end
      end
  end.

Definition finditer (r : regex) (s : string) : list match_object :=
  finditer_from (S (String.length s)) r s 0.

End Re.

(* ------------------------------------------------------------------------- *)
(** * csv.reader                                                              *)
(* ------------------------------------------------------------------------- *)

(** The reader of the [csv] module under the default (excel) dialect:
    delimiter [,], quote character the double quote, [doublequote] set, no
    escape character, [skipinitialspace] and [strict] unset.  The states an
    escape character leads to are unreachable and left out. *)
Module Csv.

Inductive state :=
| START_RECORD | START_FIELD | IN_FIELD | IN_QUOTED_FIELD
| QUOTE_IN_QUOTED_FIELD | EAT_CRNL.

Record reader := mk {
  st : state;
  fields : list string;      (* the fields saved so far *)
  field : string;            (* the field being read *)
  field_len : Z
}.

Definition field_limit : Z := 131072.

Definition delimiter : ascii := ",".
Definition quotechar : ascii := ascii_of_nat 34.
Definition is_nl (c : ascii) : bool :=
  (Py.is_char Py.newline c || Py.is_char (ascii_of_nat 13) c)%bool.

Definition msg_newline : string :=
  "new-line character seen in unquoted field - do you need to open the file in universal-newline mode?".
Definition msg_limit : string := "field larger than field limit (131072)".

Definition with_state (s : state) (r : reader) : reader :=
  {| st := s; fields := fields r; field := field r;
     field_len := field_len r |}.

Definition parse_save_field (r : reader) : reader :=
  {| st := st r; fields := fields r ++ [field r]; field := EmptyString;
     field_len := 0 |}.

Definition parse_add_char (c : ascii) (r : reader) : string + reader :=
  if field_len r >=? field_limit then inl msg_limit
  else inr {| st := st r; fields := fields r;
              field := field r ++ String c EmptyString;
              field_len := field_len r + 1 |}.

Definition then_state (s : state) (x : string + reader) : string + reader :=
  match x with inl e => inl e | inr r => inr (with_state s r) end.

(** What [START_FIELD] does with a character; [None] is the end of the
    line. *)
Definition start_field (c : option ascii) (r : reader) : string + reader :=
  match c with
  | None => inr (with_state START_RECORD (parse_save_field r))
  | Some c =>
      if is_nl c then inr (with_state EAT_CRNL (parse_save_field r))
      else if Py.is_char quotechar c then inr (with_state IN_QUOTED_FIELD r)
      else if Py.is_char delimiter c
           then inr (with_state START_FIELD (parse_save_field r))
           else then_state IN_FIELD (parse_add_char c r)
  end.

Definition parse_process_char (c : option ascii) (r : reader)
  : string + reader :=
  match st r with
  | START_RECORD =>
      match c with
      | None => inr r
      | Some c' =>
          if is_nl c' then inr (with_state EAT_CRNL r)
          else start_field c (with_state START_FIELD r)
      end
  | START_FIELD => start_field c r
  | IN_FIELD =>
      match c with
      | None => inr (with_state START_RECORD (parse_save_field r))
      | Some c =>
          if is_nl c then inr (with_state EAT_CRNL (parse_save_field r))
          else if Py.is_char delimiter c
               then inr (with_state START_FIELD (parse_save_field r))
               else parse_add_char c r
      end
  | IN_QUOTED_FIELD =>
      match c with
      | None => inr r
      | Some c =>
          if Py.is_char quotechar c
          then inr (with_state QUOTE_IN_QUOTED_FIELD r)
          else parse_add_char c r
      end
  | QUOTE_IN_QUOTED_FIELD =>
      match c with
      | None => inr (with_state START_RECORD (parse_save_field r))
      | Some c =>
          if Py.is_char quotechar c
          then then_state IN_QUOTED_FIELD (parse_add_char c r)
          else if Py.is_char delimiter c
               then inr (with_state START_FIELD (parse_save_field r))
               else if is_nl c
                    then inr (with_state EAT_CRNL (parse_save_field r))
                    else then_state IN_FIELD (parse_add_char c r)
      end
  | EAT_CRNL =>
      match c with
      | None => inr (with_state START_RECORD r)
      | Some c => if is_nl c then inr r else inl msg_newline
      end
  end.

Fixpoint process_line (line : string) (r : reader) : string + reader :=
  match line with
  | EmptyString => parse_process_char None r
  | String c line' =>
      match parse_process_char (Some c) r with
      | inl e => inl e
      | inr r' => process_line line' r'
      end
  end.

(** [next(csv.reader([line]))]: the row read from the one line, or the
    message of [csv.Error].  When the line ends inside a quoted field the
    reader asks for another line, finds none, and saves the open field. *)
Definition read_row (line : string) : string + list string :=
  match process_line line
          {| st := START_RECORD; fields := []; field := EmptyString;
             field_len := 0 |} with
  | inl e => inl e
  | inr r =>
      match st r with
      | START_RECORD => inr (fields r)
      | _ => inr (fields (parse_save_field r))
      end
  end.

End Csv.

(* ------------------------------------------------------------------------- *)
(** * ParseStats ([parsers/__init__.py])                                      *)
(* ------------------------------------------------------------------------- *)

Module Stats.

Record t := mk {
  total_lines : Z;
  parsed : Z;
  rejected : Py.dict Z
}.

(** [ParseStats()] *)
Definition fresh : t := {| total_lines := 0; parsed := 0; rejected := [] |}.

Definition note_success (st : t) : t :=
  {| total_lines := total_lines st + 1;
     parsed := parsed st + 1;
     rejected := rejected st |}.

Definition note_failure (reason : string) (st : t) : t :=
  let rej :=
    if negb (Py.mem reason (rejected st))
    then Py.set reason 0 (rejected st)
    else rejected st in
  {| total_lines := total_lines st + 1;
     parsed := parsed st;
     rejected :=
       match Py.get reason rej with
       | Some n => Py.set reason (n + 1) rej
       | None => rej                 (* KeyError; the key was just ensured *)
       end |}.

(** [sum(rejected.values())] *)
Definition rejected_total (st : t) : Z := Py.sum (Py.values (rejected st)).

(** [rejected.get(reason, 0)] *)
Definition rejected_count (reason : string) (st : t) : Z :=
  match Py.get reason (rejected st) with Some n => n | None => 0 end.

(** The invariant of the specification. *)
Definition invariant (st : t) : Prop :=
  total_lines st = parsed st + rejected_total st.

End Stats.

(* ------------------------------------------------------------------------- *)
(** * The effects of a [parse] generator                                      *)
(* ------------------------------------------------------------------------- *)

(** A normalized record: [dict[str, str | None]]. *)
Definition record := Py.dict (option string).

Module Gen.

Inductive exn := ValueError (literal : string).

Inductive result (A : Type) :=
| Done (a : A)
| Raised (e : exn).
Arguments Done {A} a.
Arguments Raised {A} e.

Section World.
(** [P] is the state the progress callback acts on. *)
Context {P : Type}.

(** What a running [parse] can touch: the caller's [ParseStats], the
    records yielded so far, the callback's state, and the number of
    lines read from the file. *)
Record world := mk {
  stats : Stats.t;
  yielded : list record;
  progress : P;
  lines_read : nat
}.

Definition M (A : Type) : Type := world -> result A * world.

Definition ret {A} (a : A) : M A := fun w => (Done a, w).

Definition bind {A B} (m : M A) (f : A -> M B) : M B :=
  fun w =>
    match m w with
    | (Done a, w') => f a w'
    | (Raised e, w') => (Raised e, w')
    end.

Definition raise {A} (e : exn) : M A := fun w => (Raised e, w).

(** [stats.note_success()] *)
Definition note_success : M unit :=
  fun w => (Done tt,
            {| stats := Stats.note_success (stats w); yielded := yielded w;
               progress := progress w; lines_read := lines_read w |}).

(** [stats.note_failure(reason)] *)
Definition note_failure (reason : string) : M unit :=
  fun w => (Done tt,
            {| stats := Stats.note_failure reason (stats w);
               yielded := yielded w;
               progress := progress w; lines_read := lines_read w |}).

(** [yield record] *)
Definition yield (r : record) : M unit :=
  fun w => (Done tt,
            {| stats := stats w; yielded := yielded w ++ [r];
               progress := progress w; lines_read := lines_read w |}).

(** [if advance_progress is not None: advance_progress(n)] *)
Definition call_progress (advance_progress : option (Z -> P -> P)) (n : Z)
  : M unit :=
  fun w =>
    match advance_progress with
    | Some f =>
        (Done tt,
         {| stats := stats w; yielded := yielded w;
            progress := f n (progress w); lines_read := lines_read w |})
    | None => (Done tt, w)
    end.

(** The file handle hands over its next line. *)
Definition read_line : M unit :=
  fun w => (Done tt,
            {| stats := stats w; yielded := yielded w;
               progress := progress w; lines_read := S (lines_read w) |}).

(** [for raw_line in handle: body] *)
Fixpoint for_each_line (handle : list string) (body : string -> M unit)
  : M unit :=
  match handle with
  | [] => ret tt
  | raw_line :: rest =>
      bind read_line (fun _ =>
      bind (body raw_line) (fun _ => for_each_line rest body))
  end.

Definition start (st : Stats.t) (p : P) : world :=
  {| stats := st; yielded := []; progress := p; lines_read := 0 |}.
End World.
Arguments world : clear implicits.
Arguments M : clear implicits.

Declare Scope gen_scope.
Delimit Scope gen_scope with gen.
Notation "x <- m ;; k" := (bind m (fun x => k))
  (at level 61, m at next level, right associativity) : gen_scope.
Notation "m ;; k" := (bind m (fun _ => k))
  (at level 61, right associativity) : gen_scope.

(** *** The three ways a loop body settles a line

    Whatever the vendor, the body of the loop calls the progress callback
    and then either counts the line as parsed and yields its record, or
    counts it under a rejection reason, or lets an exception escape. *)
Inductive outcome :=
| Accept (r : record)          (* note_success, then yield r *)
| Reject (reason : string)     (* note_failure reason *)
| Escape (e : exn).             (* an exception leaves the generator *)

Section Settle.
Context {P : Type}.
Local Open Scope gen_scope.

Definition settle (o : outcome) : M P unit :=
  match o with
  | Accept r => note_success ;; yield r
  | Reject reason => note_failure reason
  | Escape e => raise e
  end.

(** The shape shared by the four loop bodies. *)
Definition settles (body : option (Z -> P -> P) -> string -> M P unit)
           (verdict : string -> outcome) : Prop :=
  forall advance_progress raw_line,
    body advance_progress raw_line
    = (call_progress advance_progress (Py.len raw_line) ;;
       settle (verdict raw_line)).

Definition set_progress (q : P) (w : world P) : world P :=
  {| stats := stats w; yielded := yielded w; progress := q;
     lines_read := lines_read w |}.

Definition after_read (w : world P) : world P :=
  {| stats := stats w; yielded := yielded w; progress := progress w;
     lines_read := S (lines_read w) |}.

(** The callback applied to the length of each of [lines], in order. *)
Definition feed (cb : Z -> P -> P) (lines : list string) (p : P) : P :=
  fold_left (fun q raw_line => cb (Py.len raw_line) q) lines p.

(** The line was counted as parsed and its record [r] yielded. *)
Definition accepted (r : record) (w w' : world P) : Prop :=
  stats w' = Stats.note_success (stats w)
  /\ yielded w' = (yielded w ++ [r])%list.

(** The line was counted under [reason] and nothing was yielded. *)
Definition rejected_as (reason : string) (w w' : world P) : Prop :=
  stats w' = Stats.note_failure reason (stats w)
  /\ yielded w' = yielded w.
End Settle.

(** What a loop body does to a line, read off a run on fresh statistics. *)
Definition observe (m : M unit unit) : outcome :=
  match m (start Stats.fresh tt) with
  | (Raised e, _) => Escape e
  | (Done _, w) =>
      match yielded w with
      | r :: _ => Accept r
      | [] => Reject (hd EmptyString (Py.keys (Stats.rejected (stats w))))
      end
  end.

End Gen.

(* ------------------------------------------------------------------------- *)
(** * Meraki ([parsers/meraki.py])                                            *)
(* ------------------------------------------------------------------------- *)

Module Meraki.
Import Re.

Definition MERAKI_PATTERN : regex :=
  seq [ Bos;
        Grp "month" (times 3 (Chr word)); plus (Chr space);
        Grp "day" (between 1 2 (Chr digit)); plus (Chr space);
        Grp "time" (seq [times 2 (Chr digit); lit ":"; times 2 (Chr digit);
                         lit ":"; times 2 (Chr digit)]);
        plus (Chr space);
        Grp "host" (plus (Chr nonspace)); plus (Chr space);
        Grp "priority" (plus (Chr digit)); plus (Chr space);
        Grp "timestamp" (plus (Chr (any_of [digit; one "."])));
        plus (Chr space);
        Grp "device_type" (plus (Chr nonspace)); plus (Chr space);
        Grp "event_type" (plus (Chr nonspace)); plus (Chr space);
        Grp "message" (star (Chr dot));
        Eos ].

(** [(\w+)[:=]([^\s]+)], the two groups named by their number. *)
Definition KV_PATTERN : regex :=
  seq [ Grp "1" (plus (Chr word));
        Chr (any_of [one ":"; one "="]);
        Grp "2" (plus (Chr nonspace)) ].

Definition _parse_key_value_pairs (text : string) : Py.dict string :=
  fold_left
    (fun pairs m => Py.set (Re.text m "1") (Re.text m "2") pairs)
    (finditer KV_PATTERN text) [].

Definition _infer_log_level (event_type message : string) : string :=
  if String.eqb event_type "firewall" then
    if (Py.contains "deny" (Py.lower message)
        || Py.contains "block" (Py.lower message))%bool
    then "warning" else "info"
  else if String.eqb event_type "events" then
    if (Py.contains "error" (Py.lower message)
        || Py.contains "fail" (Py.lower message))%bool
    then "error" else "info"
  else if existsb (String.eqb event_type) ["ip_flow_start"; "ip_flow_end"]
  then "info"
  else if String.eqb event_type "urls" then "info"
  else "info".

Definition _categorize_event (event_type message : string) : string :=
  if existsb (String.eqb event_type) ["ip_flow_start"; "ip_flow_end"]
  then "network-flow"
  else if String.eqb event_type "urls" then "web-security"
  else if String.eqb event_type "firewall" then "firewall"
  else if String.eqb event_type "events" then
    if Py.contains "dhcp" (Py.lower message) then "dhcp" else "system-events"
  else "other".

Definition kv_keys : list string :=
  ["src"; "dst"; "protocol"; "sport"; "dport"; "mac";
   "translated_src_ip"; "translated_port"; "pattern"].

Section Parse.
Context {P : Type}.
Import Gen.
Local Open Scope gen_scope.

(** The body of the loop of [MerakiParser.parse]. *)
Definition body (advance_progress : option (Z -> P -> P))
           (raw_line : string) : M P unit :=
  call_progress advance_progress (Py.len raw_line) ;;
  let line := Py.rstrip_nl raw_line in
  if String.eqb line EmptyString then note_failure "empty"
  else
    match match_ MERAKI_PATTERN line with
    | None => note_failure "format-mismatch"
    | Some m =>
        let event_type := Re.text m "event_type" in
        let message := Re.text m "message" in
        let kv_pairs := _parse_key_value_pairs message in
        let record : record :=
          [ ("syslog_month", group m "month");
            ("syslog_day", group m "day");
            ("syslog_time", group m "time");
            ("host_ip", group m "host");
            ("priority", group m "priority");
            ("epoch_timestamp", group m "timestamp");
            ("device_type", group m "device_type");
            ("event_type", Some event_type);
            ("message", Some message);
            ("log_level", Some (_infer_log_level event_type message));
            ("category", Some (_categorize_event event_type message)) ] in
        let record :=
          fold_left (fun r key => Py.set key (Py.get key kv_pairs) r)
                    kv_keys record in
        note_success ;;
        yield record
    end.

(** [parse(path, stats, advance_progress)], consumed to its end; [path]
    stands for the text of the file. *)
Definition parse (path : string) (st : Stats.t)
           (advance_progress : option (Z -> P -> P)) (p : P)
  : result unit * world P :=
  let handle := Py.open_text path in
  for_each_line handle (body advance_progress) (start st p).
End Parse.

End Meraki.



(* ------------------------------------------------------------------------- *)
(** * UniFi ([parsers/unifi.py])                                              *)
(* ------------------------------------------------------------------------- *)

Module UniFi.
Import Re.

Definition SYSLOG_PATTERN : regex :=
  seq [ Bos;
        Grp "month" (times 3 (Chr word)); plus (Chr space);
        Grp "day" (between 1 2 (Chr digit)); plus (Chr space);
        Grp "time" (seq [times 2 (Chr digit); lit ":"; times 2 (Chr digit);
                         lit ":"; times 2 (Chr digit)]);
        plus (Chr space);
        Grp "host" (plus (Chr nonspace)); plus (Chr space);
        Grp "hostname" (lazy_plus (Chr nonspace)); opt (lit ":");
        plus (Chr space);
        Grp "process" (lazy_plus (Chr (none_of ["["; "]"; ":"]%char)));
        star (seq [lit "["; Grp "pid" (plus (Chr digit)); lit "]"]);
        lit ":"; plus (Chr space);
        Grp "message" (star (Chr dot));
        Eos ].

Definition CEF_PATTERN : regex :=
  seq [ Bos;
        Grp "month" (times 3 (Chr word)); plus (Chr space);
        Grp "day" (between 1 2 (Chr digit)); plus (Chr space);
        Grp "time" (seq [times 2 (Chr digit); lit ":"; times 2 (Chr digit);
                         lit ":"; times 2 (Chr digit)]);
        plus (Chr space);
        Grp "host" (plus (Chr nonspace)); plus (Chr space);
        lit "CEF:"; Grp "cef_version" (plus (Chr digit)); lit "|";
        Grp "vendor" (plus (Chr (none_of ["|"]%char))); lit "|";
        Grp "product" (plus (Chr (none_of ["|"]%char))); lit "|";
        Grp "product_version" (plus (Chr (none_of ["|"]%char))); lit "|";
        Grp "event_id" (plus (Chr (none_of ["|"]%char))); lit "|";
        Grp "event_name" (plus (Chr (none_of ["|"]%char))); lit "|";
        Grp "severity" (plus (Chr (none_of ["|"]%char))); lit "|";
        Grp "extensions" (star (Chr dot));
        Eos ].

Definition _infer_log_level (message : string) : string :=
  let message_lower := Py.lower message in
  if Py.any_in ["error"; "failed"; "failure"; "critical"; "fatal"]
               message_lower then "error"
  else if Py.any_in ["warn"; "warning"] message_lower then "warning"
  else if Py.any_in ["starting"; "started"; "stopping"; "stopped";
                     "finished"; "succeeded"] message_lower then "info"
  else if Py.contains "debug" message_lower then "debug"
  else "info".

Definition _categorize_process (process : string) : string :=
  let process_lower := Py.lower process in
  if String.eqb process_lower "unifi-security" then "unifi-security"
  else if Py.contains "systemd" process_lower then "system"
  else if Py.any_in ["kernel"; "dmesg"] process_lower then "kernel"
  else if Py.any_in ["mcad"; "stamgr"; "wevent"; "ubios"] process_lower
  then "unifi-controller"
  else if Py.any_in ["hostapd"; "wpa"] process_lower then "wifi"
  else if Py.any_in ["dhcp"; "dns"; "named"] process_lower
  then "network-services"
  else if Py.any_in ["ssh"; "sshd"; "login"] process_lower then "auth"
  else "other".

Definition dquote : string := String (ascii_of_nat 34) EmptyString.

Section Parse.
Context {P : Type}.
Import Gen.
Local Open Scope gen_scope.

(** The body of the loop of [UniFiParser.parse]. *)
Definition body (advance_progress : option (Z -> P -> P))
           (raw_line : string) : M P unit :=
  call_progress advance_progress (Py.len raw_line) ;;
  let line := Py.rstrip_nl raw_line in
  if String.eqb line EmptyString then note_failure "empty"
  else
    let stripped := Py.lstrip line in
    if Py.startswith_any stripped ["{"; "}"; dquote; "]"; "["]
    then note_failure "json-data"
    else
      match match_ CEF_PATTERN line with
      | Some cef_match =>
          let severity := Re.text cef_match "severity" in
          match Py.int severity with
          | None => raise (ValueError severity)
          | Some sev =>
              let record : record :=
                [ ("syslog_month", group cef_match "month");
                  ("syslog_day", group cef_match "day");
                  ("syslog_time", group cef_match "time");
                  ("host_ip", group cef_match "host");
                  ("hostname", Some "CEF");
                  ("process", Some "unifi-security");
                  ("pid", None);
                  ("message",
                   Some (Re.text cef_match "event_name" ++ " (severity="
                         ++ severity ++ ")"));
                  ("log_level",
                   Some (if sev >=? 5 then "warning" else "info"));
                  ("category", Some "unifi-security") ] in
              note_success ;;
              yield record
          end
      | None =>
          match match_ SYSLOG_PATTERN line with
          | None => note_failure "format-mismatch"
          | Some m =>
              let message := Re.text m "message" in
              let process := Re.text m "process" in
              let record : record :=
                [ ("syslog_month", group m "month");
                  ("syslog_day", group m "day");
                  ("syslog_time", group m "time");
                  ("host_ip", group m "host");
                  ("hostname", group m "hostname");
                  ("process", Some process);
                  ("pid", group m "pid");
                  ("message", Some message);
                  ("log_level", Some (_infer_log_level message));
                  ("category", Some (_categorize_process process)) ] in
              note_success ;;
              yield record
          end
      end.

(** [parse(path, stats, advance_progress)], consumed to its end; [path]
    stands for the text of the file. *)
Definition parse (path : string) (st : Stats.t)
           (advance_progress : option (Z -> P -> P)) (p : P)
  : result unit * world P :=
  let handle := Py.open_text path in
  for_each_line handle (body advance_progress) (start st p).
End Parse.

End UniFi.

(* ------------------------------------------------------------------------- *)
(** * WatchGuard ([parsers/watchguard.py])                                    *)
(* ------------------------------------------------------------------------- *)

Module WatchGuard.
Import Re.

Definition dquote : ascii := ascii_of_nat 34.

Definition WATCHGUARD_PATTERN : regex :=
  seq [ Bos;
        Grp "month" (times 3 (Chr word)); plus (Chr space);
        Grp "day" (between 1 2 (Chr digit)); plus (Chr space);
        Grp "time" (seq [times 2 (Chr digit); lit ":"; times 2 (Chr digit);
                         lit ":"; times 2 (Chr digit)]);
        plus (Chr space);
        Grp "host" (plus (Chr nonspace)); plus (Chr space);
        Grp "device_id" (plus (Chr nonspace)); plus (Chr space);
        Grp "device_name" (plus (Chr nonspace)); plus (Chr space);
        lit "("; Grp "timestamp" (plus (Chr (none_of [")"]%char))); lit ")";
        plus (Chr space);
        Grp "process" (lazy_plus (Chr (none_of ["["; ":"]%char)));
        opt (seq [lit "["; Grp "pid" (plus (Chr digit)); lit "]"]);
        lit ":"; plus (Chr space);
        opt (seq [lit "msg_id="; Chr (one dquote);
                  Grp "msg_id" (plus (Chr (none_of [dquote])));
                  Chr (one dquote); plus (Chr space)]);
        Grp "message" (star (Chr dot));
        Eos ].

Definition _infer_log_level_from_msg_id (msg_id : option string)
           (message : string) : string :=
  let by_id :=
    match msg_id with
    | Some id =>
        if negb (String.eqb id EmptyString) then
          if Py.startswith_any id ["3001-"; "0207-"; "020B-"]
          then Some "warning"
          else if Py.startswith_any id ["4001-"; "7600-"]
               then Some "error" else None
        else None
    | None => None
    end in
  match by_id with
  | Some level => level
  | None =>
      let message_lower := Py.lower message in
      if Py.any_in ["error"; "failed"; "failure"; "critical"; "fatal"; "down"]
                   message_lower then "error"
      else if Py.any_in ["warning"; "block"; "deny"; "reject"; "unknown"]
                        message_lower then "warning"
      else "info"
  end.

Definition _categorize_process (process : string) : string :=
  let process_lower := Py.lower (Py.strip process) in
  if String.eqb process_lower "firewall" then "firewall"
  else if existsb (String.eqb process_lower) ["iked"; "sslvpn"] then "vpn"
  else if String.eqb process_lower "dhcpd" then "network-services"
  else if String.eqb process_lower "sessiond" then "session-management"
  else if existsb (String.eqb process_lower) ["loggerd"; "admd"]
  then "system"
  else if String.eqb process_lower "sigd" then "security"
  else if existsb (String.eqb process_lower) ["portald"; "gwcd"]
  then "gateway"
  else if existsb (String.eqb process_lower) ["certd"; "link-mon"]
  then "monitoring"
  else "other".

Section Parse.
Context {P : Type}.
Import Gen.
Local Open Scope gen_scope.

(** The body of the loop of [WatchGuardParser.parse]. *)
Definition body (advance_progress : option (Z -> P -> P))
           (raw_line : string) : M P unit :=
  call_progress advance_progress (Py.len raw_line) ;;
  let line := Py.rstrip_nl raw_line in
  if String.eqb line EmptyString then note_failure "empty"
  else
    match match_ WATCHGUARD_PATTERN line with
    | None => note_failure "format-mismatch"
    | Some m =>
        let message := Re.text m "message" in
        let process := Re.text m "process" in
        let msg_id := group m "msg_id" in
        let record : record :=
          [ ("syslog_month", group m "month");
            ("syslog_day", group m "day");
            ("syslog_time", group m "time");
            ("host_ip", group m "host");
            ("device_id", group m "device_id");
            ("device_name", group m "device_name");
            ("iso_timestamp", group m "timestamp");
            ("process", Some process);
            ("pid", group m "pid");
            ("msg_id", msg_id);
            ("message", Some message);
            ("log_level",
             Some (_infer_log_level_from_msg_id msg_id message));
            ("category", Some (_categorize_process process)) ] in
        note_success ;;
        yield record
    end.

(** [parse(path, stats, advance_progress)], consumed to its end; [path]
    stands for the text of the file. *)
Definition parse (path : string) (st : Stats.t)
           (advance_progress : option (Z -> P -> P)) (p : P)
  : result unit * world P :=
  let handle := Py.open_text path in
  for_each_line handle (body advance_progress) (start st p).
End Parse.

End WatchGuard.

(* ------------------------------------------------------------------------- *)
(** * Palo Alto Networks ([parsers/palo_alto.py])                             *)
(* ------------------------------------------------------------------------- *)

Module PaloAlto.
Import Re.

Definition SYSLOG_PREFIX : regex :=
  seq [ Bos;
        Grp "month" (times 3 (Chr word)); plus (Chr space);
        Grp "day" (between 1 2 (Chr digit)); plus (Chr space);
        Grp "time" (seq [times 2 (Chr digit); lit ":"; times 2 (Chr digit);
                         lit ":"; times 2 (Chr digit)]);
        plus (Chr space);
        Grp "host" (plus (Chr nonspace)); plus (Chr space) ].

Definition FIELD_ALIASES : list (nat * string) :=
  [ (0, "future_use"); (1, "receive_time"); (2, "serial_number");
    (3, "log_type"); (4, "log_subtype"); (5, "config_version");
    (6, "generated_time"); (7, "src_ip"); (8, "dst_ip"); (9, "nat_src_ip");
    (10, "nat_dst_ip"); (11, "rule_name"); (12, "src_user");
    (13, "dst_user"); (14, "application"); (15, "vsys"); (16, "src_zone");
    (17, "dst_zone"); (18, "inbound_interface"); (19, "outbound_interface");
    (20, "log_action"); (21, "logged_time"); (22, "session_id");
    (23, "repeat_count"); (24, "src_port"); (25, "dst_port");
    (26, "nat_src_port"); (27, "nat_dst_port"); (28, "flags");
    (29, "protocol"); (30, "action"); (31, "bytes_total");
    (32, "bytes_sent"); (33, "bytes_received"); (34, "packets");
    (35, "session_start_time"); (36, "elapsed_time"); (37, "category");
    (38, "padding"); (39, "seqno"); (40, "action_flags");
    (41, "src_country"); (42, "dst_country"); (44, "packets_sent");
    (45, "packets_received"); (46, "session_end_reason");
    (47, "device_group"); (52, "device_name"); (53, "policy_type");
    (55, "monitor_tag"); (56, "parent_session_id");
    (57, "parent_start_time"); (60, "http2_connection_id");
    (65, "rule_uuid"); (102, "generated_timestamp"); (105, "app_family");
    (106, "app_technology"); (107, "app_risk_level");
    (108, "app_risk_score"); (109, "app_characteristics");
    (110, "app_subcategory"); (111, "app_identifier");
    (112, "app_tunneled"); (113, "app_is_saas");
    (114, "app_risk_category"); (115, "app_tunnel_category") ]%nat.

Definition _normalise_field (value : string) : option string :=
  let value := Py.strip value in
  if String.eqb value EmptyString then None else Some value.

Section Parse.
Context {P : Type}.
Import Gen.
Local Open Scope gen_scope.

(** The body of the loop of [PaloAltoParser.parse]. *)
Definition body (advance_progress : option (Z -> P -> P))
           (raw_line : string) : M P unit :=
  call_progress advance_progress (Py.len raw_line) ;;
  let line := Py.rstrip_nl raw_line in
  if String.eqb line EmptyString then note_failure "empty"
  else
    match match_ SYSLOG_PREFIX line with
    | None => note_failure "missing-prefix"
    | Some prefix =>
        let rest := Py.drop (m_end prefix) line in
        match Csv.read_row rest with
        | inl exc => note_failure ("csv-error: " ++ exc)
        | inr fields =>
            let record : record :=
              [ ("syslog_host", group prefix "host");
                ("syslog_month", group prefix "month");
                ("syslog_day", group prefix "day");
                ("syslog_time", group prefix "time") ] in
            let record :=
              fold_left
                (fun r '(index, alias) =>
                   match nth_error fields index with
                   | Some f => Py.set alias (_normalise_field f) r
                   | None => r
                   end)
                FIELD_ALIASES record in
            note_success ;;
            yield record
        end
    end.

(** [parse(path, stats, advance_progress)], consumed to its end; [path]
    stands for the text of the file. *)
Definition parse (path : string) (st : Stats.t)
           (advance_progress : option (Z -> P -> P)) (p : P)
  : result unit * world P :=
  let handle := Py.open_text path in
  for_each_line handle (body advance_progress) (start st p).
End Parse.

End PaloAlto.

Definition sample_meraki_line : string :=
  "Nov  5 00:00:04 90.102.85.18 1 1762300804.143040390 ROUTER ip_flow_end src=10.10.0.102 dst=35.153.85.208 protocol=6".

(* ------------------------------------------------------------------------- *)
(** * The verdict of each parser on a line                                    *)
(* ------------------------------------------------------------------------- *)

Module Verdict.
Import Gen.

Definition meraki_verdict (raw_line : string) : outcome :=
  observe (Meraki.body None raw_line).
Definition unifi_verdict (raw_line : string) : outcome :=
  observe (UniFi.body None raw_line).
Definition watchguard_verdict (raw_line : string) : outcome :=
  observe (WatchGuard.body None raw_line).
Definition paloalto_verdict (raw_line : string) : outcome :=
  observe (PaloAlto.body None raw_line).

End Verdict.

(* ------------------------------------------------------------------------- *)
(** * Tables                                                                  *)
(* ------------------------------------------------------------------------- *)

(** The [polars] data frame as far as [cli.py] uses it. *)
Module Frame.

(** A cell: null, a string, an integer, or a datetime held as the number
    of microseconds since 1970-01-01T00:00:00. *)
Inductive value :=
| Null
| Str (s : string)
| Int (z : Z)
| Datetime (us : Z).

Definition row := Py.dict value.

Record t := mk {
  columns : list string;       (* frame.columns *)
  rows : list row
}.

(** [pl.DataFrame(schema={})], the table of a run that parsed nothing. *)
Definition empty : t := {| columns := []; rows := [] |}.

(** [frame.height] *)
Definition height (frame : t) : Z := Z.of_nat (List.length (rows frame)).

(** [column in frame.columns] *)
Definition has_column (column : string) (frame : t) : bool :=
  existsb (String.eqb column) (columns frame).

Definition cell (column : string) (r : row) : value :=
  match Py.get column r with Some v => v | None => Null end.

Definition is_null (v : value) : bool :=
  match v with Null => true | _ => false end.

Definition value_eqb (a b : value) : bool :=
  match a, b with
  | Null, Null => true
  | Str x, Str y => String.eqb x y
  | Int x, Int y => Z.eqb x y
  | Datetime x, Datetime y => Z.eqb x y
  | _, _ => false
  end.

(** The ascending order of a sort: nulls first, then the values of the
    column in their own order (strings by code points).  A column holds
    values of one type; across types the order below is by type. *)
Definition rank (v : value) : Z :=
  match v with Null => 0 | Int _ => 1 | Str _ => 2 | Datetime _ => 3 end.

Definition value_compare (a b : value) : comparison :=
  match a, b with
  | Str x, Str y => String.compare x y
  | Int x, Int y => Z.compare x y
  | Datetime x, Datetime y => Z.compare x y
  | _, _ => Z.compare (rank a) (rank b)
  end.

Definition value_leb (a b : value) : bool :=
  match value_compare a b with Gt => false | _ => true end.

(** ** [group_by(column).agg(...)]

    One group per distinct value of the column, null included, with the
    number of its rows ([pl.len()]) and, when a column of bytes is summed,
    the [Int64] sum of its non-null cells (a column of bytes is a column
    of integers that may hold nulls).  Groups come in the order of their
    first row; Polars does not promise any order, and every use below
    sorts the groups. *)
Record group := mk_group {
  key : value;
  events : Z;
  bytes : option Z
}.

Definition wrap64 (z : Z) : Z := (z + 2 ^ 63) mod 2 ^ 64 - 2 ^ 63.

Definition int_or_zero (v : value) : Z :=
  match v with Int z => z | _ => 0 end.

Fixpoint bump (k : value) (b : option Z) (gs : list group) : list group :=
  match gs with
  | [] => [ {| key := k; events := 1; bytes := b |} ]
  | g :: gs' =>
      if value_eqb k (key g)
      then {| key := key g; events := events g + 1;
              bytes := match bytes g, b with
                       | Some x, Some y => Some (wrap64 (x + y))
                       | _, _ => bytes g
                       end |} :: gs'
      else g :: bump k b gs'
  end.

Definition group_by (column : string) (bytes_column : option string)
           (rs : list row) : list group :=
  fold_left
    (fun gs r =>
       bump (cell column r)
            (option_map (fun c => int_or_zero (cell c r)) bytes_column) gs)
    rs [].

(** ** [sort]: a stable sort by a comparison. *)
Section Sort.
Context {A : Type} (before : A -> A -> bool).

Fixpoint insert (x : A) (l : list A) : list A :=
  match l with
  | [] => [x]
  | y :: l' => if before x y then x :: l else y :: insert x l'
  end.

Definition sort (l : list A) : list A := fold_right insert [] l.

(** [a] may stand before [b]. *)
Definition rel (a b : A) : Prop := before a b = true.
End Sort.

(** The number of rows whose cell in [column] is [k], the group of a key,
    and its number of rows. *)
Definition count_key (column : string) (k : value) (rs : list row) : Z :=
  Z.of_nat (List.length (filter (fun r => value_eqb (cell column r) k) rs)).

Definition find_group (k : value) (gs : list group) : option group :=
  find (fun g => value_eqb k (key g)) gs.

Definition events_of (k : value) (gs : list group) : Z :=
  match find_group k gs with Some g => events g | None => 0 end.

(** ** Float64 *)

(** The float of a count (a count is below 2^32, so the float is exact). *)
Definition to_float (n : Z) : float := PrimFloat.of_uint63 (Uint63.of_Z n).

(** The order in which floats are sorted: the usual one, NaN above all. *)
Definition float_compare (x y : float) : comparison :=
  match PrimFloat.compare x y with
  | FEq => Eq
  | FLt => Lt
  | FGt => Gt
  | FNotComparable =>
      if PrimFloat.is_nan x
      then if PrimFloat.is_nan y then Eq else Gt
      else Lt
  end.

(** The place of a float in that order: class, then exponent, then
    mantissa, compared as integers from left to right. *)
Definition float_key (x : float) : Z * Z * Z :=
  match Prim2SF x with
  | S754_nan => (3, 0, 0)
  | S754_infinity false => (2, 0, 0)
  | S754_finite false m e => (1, e, Zpos m)
  | S754_zero _ => (0, 0, 0)
  | S754_finite true m e => (-1, - e, Zneg m)
  | S754_infinity true => (-2, 0, 0)
  end.

Definition key_compare (a b : Z * Z * Z) : comparison :=
  let '(a1, a2, a3) := a in
  let '(b1, b2, b3) := b in
  match Z.compare a1 b1 with
  | Eq => match Z.compare a2 b2 with
          | Eq => Z.compare a3 b3
          | c => c
          end
  | c => c
  end.

(** ** Datetimes as Python sees them *)

Record datetime := mk_datetime {
  year : Z; month : Z; day : Z;
  hour : Z; minute : Z; second : Z; microsecond : Z
}.

(** The civil date of a day number counted from 1970-01-01, in the
    proleptic Gregorian calendar. *)
Definition civil_from_days (days : Z) : Z * Z * Z :=
  let z := days + 719468 in
  let era := z / 146097 in
  let doe := z - era * 146097 in
  let yoe := (doe - doe / 1460 + doe / 36524 - doe / 146096) / 365 in
  let y := yoe + era * 400 in
  let doy := doe - (365 * yoe + yoe / 4 - yoe / 100) in
  let mp := (5 * doy + 2) / 153 in
  let d := doy - (153 * mp + 2) / 5 + 1 in
  let m := if mp <? 10 then mp + 3 else mp - 9 in
  (if m <=? 2 then y + 1 else y, m, d).

(** The [datetime] object of a cell; Python has none outside the years
    1 to 9999. *)
Definition to_datetime (us : Z) : option datetime :=
  let '(y, m, d) := civil_from_days (us / 86400000000) in
  let r := us mod 86400000000 in
  if ((1 <=? y) && (y <=? 9999))%bool
  then Some {| year := y; month := m; day := d;
               hour := r / 3600000000;
               minute := (r / 60000000) mod 60;
               second := (r / 1000000) mod 60;
               microsecond := r mod 1000000 |}
  else None.

(** [d.strftime("%Y-%m-%d %H:%M")] *)
Definition strftime_minute (d : datetime) : string :=
  Py.str_int (year d) ++ "-" ++ Py.zfill 2 (month d) ++ "-"
  ++ Py.zfill 2 (day d) ++ " " ++ Py.zfill 2 (hour d) ++ ":"
  ++ Py.zfill 2 (minute d).

(** [str(d)] *)
Definition str_datetime (d : datetime) : string :=
  Py.zfill 4 (year d) ++ "-" ++ Py.zfill 2 (month d) ++ "-"
  ++ Py.zfill 2 (day d) ++ " " ++ Py.zfill 2 (hour d) ++ ":"
  ++ Py.zfill 2 (minute d) ++ ":" ++ Py.zfill 2 (second d)
  ++ (if microsecond d =? 0 then EmptyString
      else "." ++ Py.zfill 6 (microsecond d)).

(** A value as a Python object: its truth value and its [str]. *)
Definition truthy (v : value) : bool :=
  match v with
  | Null => false
  | Str s => negb (String.eqb s EmptyString)
  | Int z => negb (z =? 0)
  | Datetime _ => true
  end.

Definition py_str (v : value) : string :=
  match v with
  | Null => "None"
  | Str s => s
  | Int z => Py.str_int z
  | Datetime us =>
      match to_datetime us with
      | Some d => str_datetime d
      | None => EmptyString
      end
  end.

End Frame.

(* ------------------------------------------------------------------------- *)
(** * The aggregations of [cli.py]                                            *)
(* ------------------------------------------------------------------------- *)

Module Cli.
Import Frame.

(** A section of the report: [{"title": ..., "columns": ..., "rows": ...}];
    [R] is the type of its rows. *)
Record section (R : Type) := mk_section {
  title : string;
  columns : list string;
  rows : list R
}.
Arguments title {R} s.
Arguments columns {R} s.
Arguments rows {R} s.

(** [str(values[column] or "<missing>")] *)
Definition key_cell (v : value) : string :=
  if truthy v then py_str v else "<missing>".

(** [column.replace("_", " ").title()] *)
Definition heading (column : string) : string :=
  Py.title (Py.replace_char "_" " " column).

(** ** Names of columns

    [group_by(column).agg(...)] gives a table of the grouping column and of
    the aggregates, [events] and [bytes] in [collect_top_counts], [events]
    and [share] in [collect_noise_candidates].  A table has one column per
    name, and the rows built from it are dictionaries keyed by these names:
    the definitions below describe the calls whose grouping column bears
    another name than the aggregates, as all calls of the report builders
    do. *)
Definition top_aggregates : list string := ["events"; "bytes"].

Definition noise_aggregates : list string := ["events"; "share"].

Definition other_than (names : list string) (column : string) : bool :=
  negb (existsb (String.eqb column) names).

(** ** [collect_top_counts]

    A row is [{column: ..., "events": ..., "bytes": ...}], the last entry
    only when the bytes column is aggregated; [bytes_formatted], a display
    string computed from [bytes], is left out. *)
Record top_row := mk_top_row {
  top_key : string;
  top_events : Z;
  top_bytes : option Z
}.

(** The order of [sort(["events", "bytes", column],
    descending=[True, True, False])], without ["bytes"] when it is not
    aggregated: does [a] come no later than [b]?  The groups of one
    aggregation all carry a sum of bytes, or none does. *)
Definition bytes_compare (a b : group) : comparison :=
  match bytes a, bytes b with
  | Some x, Some y => Z.compare y x
  | None, None => Eq
  | None, Some _ => Lt
  | Some _, None => Gt
  end.

Definition top_before (a b : group) : bool :=
  match Z.compare (events b) (events a) with
  | Lt => true
  | Gt => false
  | Eq =>
      match bytes_compare a b with
      | Lt => true
      | Gt => false
      | Eq => value_leb (key a) (key b)
      end
  end.

Definition top_aggregation (frame : Frame.t) (column bytes_column : string)
           (top : Z) : list group :=
  let aggregation :=
    group_by column
             (if has_column bytes_column frame then Some bytes_column
              else None)
             (Frame.rows frame) in
  Py.slice_to top (sort top_before aggregation).

Definition top_row_of (g : group) : top_row :=
  {| top_key := key_cell (key g); top_events := events g;
     top_bytes := bytes g |}.

Definition collect_top_counts (frame : Frame.t) (column : string)
           (bytes_column : string) (top : Z) (title : option string)
  : option (section top_row) :=
  if negb (has_column column frame) then None
  else
    let aggregation := top_aggregation frame column bytes_column top in
    let rows := map top_row_of aggregation in
    let cols :=
      ([heading column; "Events"]
       ++ (if has_column bytes_column frame then ["Approx. Bytes"]
           else []))%list in
    let default := "Top " ++ Py.str_int top ++ " by " ++ column in
    Some {| title := match title with
                     | Some t => if String.eqb t EmptyString then default
                                 else t
                     | None => default
                     end;
            columns := cols;
            rows := rows |}.

(** ** [collect_trend] *)
Record trend_row := mk_trend_row {
  trend_minute : string;
  trend_events : Z
}.

(** [frame.filter(...is_not_null()).group_by("minute_bucket")
    .agg(pl.len()).sort("minute_bucket")] *)
Definition trend_table (frame : Frame.t) : list group :=
  sort (fun a b => value_leb (key a) (key b))
       (group_by "minute_bucket" None
                 (filter (fun r => negb (is_null (cell "minute_bucket" r)))
                         (Frame.rows frame))).

(** A row of the trend; [bucket.strftime] needs a datetime. *)
Definition trend_row_of (g : group) : option trend_row :=
  match key g with
  | Datetime us =>
      match to_datetime us with
      | Some d => Some {| trend_minute := strftime_minute d;
                          trend_events := events g |}
      | None => None
      end
  | _ => None
  end.

Fixpoint all_rows {A B : Type} (f : A -> option B) (l : list A)
  : option (list B) :=
  match l with
  | [] => Some []
  | x :: l' =>
      match f x, all_rows f l' with
      | Some y, Some ys => Some (y :: ys)
      | _, _ => None
      end
  end.

(** The answer of [collect_trend]: [None], a section, or an exception
    raised while the rows are built. *)
Inductive answer (R : Type) :=
| Absent
| Present (s : section R)
| Raises.
Arguments Absent {R}.
Arguments Present {R} s.
Arguments Raises {R}.

Definition collect_trend (frame : Frame.t) (top : Z) : answer trend_row :=
  if negb (has_column "minute_bucket" frame) then Absent
  else
    let trend := trend_table frame in
    if (List.length trend =? 0)%nat then Absent
    else
      match all_rows trend_row_of trend with
      | None => Raises
      | Some rows =>
          Present {| title := "Volume per minute";
                     columns := ["Minute"; "Events"];
                     rows := Py.slice_to top rows |}
      end.

(** ** [collect_noise_candidates] *)
Record noise_row := mk_noise_row {
  noise_key : string;
  noise_events : Z;
  noise_share : float
}.

(** A group with its share of the rows: [events / total_events * 100.0]. *)
Definition share_of (total_events : Z) (g : group) : float :=
  (to_float (events g) / to_float total_events * 100)%float.

(** [sort(["share", "events"], descending=[True, True])] *)
Definition noise_before (a b : group * float) : bool :=
  match float_compare (snd b) (snd a) with
  | Lt => true
  | Gt => false
  | Eq => events (fst b) <=? events (fst a)
  end.

Definition noise_aggregation (frame : Frame.t) (column : string)
           (threshold : float) : list (group * float) :=
  let total_events := height frame in
  let cutoff := (to_float total_events * (threshold / 100))%float in
  sort noise_before
       (filter (fun gs => (cutoff <=? to_float (events (fst gs)))%float)
               (map (fun g => (g, share_of total_events g))
                    (group_by column None (Frame.rows frame)))).

Definition noise_row_of (gs : group * float) : noise_row :=
  {| noise_key := key_cell (key (fst gs));
     noise_events := events (fst gs);
     noise_share := snd gs |}.

(** The middle dot of the title, U+00B7. *)
Definition middle_dot : string := String (ascii_of_nat 183) EmptyString.

Definition collect_noise_candidates (frame : Frame.t) (column : string)
           (threshold : float) : option (section noise_row) :=
  if (threshold <=? 0)%float then None
  else if negb (has_column column frame) then None
  else
    let total_events := height frame in
    if total_events =? 0 then None
    else
      let aggregation := noise_aggregation frame column threshold in
      match aggregation with
      | [] => None
      | _ =>
          Some {| title := "Noise candidates " ++ middle_dot ++ " "
                           ++ heading column;
                  columns := [heading column; "Events"; "Traffic Share"];
                  rows := map noise_row_of aggregation |}
      end.

End Cli.

(* ------------------------------------------------------------------------- *)
(** * Tables used in the statements                                           *)
(* ------------------------------------------------------------------------- *)

Module TableSpec.
Import Frame Cli.

(** [n] rows whose [column] holds [v]. *)
Definition rows_of (column : string) (v : value) (n : nat) : list row :=
  repeat [(column, v)] n.

(** The counts of the scenario: allow 100, deny 40, reset 40. *)
Definition scenario_groups : list group :=
  [ {| key := Str "allow"; events := 100; bytes := None |};
    {| key := Str "deny"; events := 40; bytes := None |};
    {| key := Str "reset"; events := 40; bytes := None |} ].

(** A table with those counts, the rows of [reset] first. *)
Definition scenario_frame : Frame.t :=
  {| Frame.columns := ["action"];
     Frame.rows := (rows_of "action" (Str "reset") 40
                    ++ rows_of "action" (Str "deny") 40
                    ++ rows_of "action" (Str "allow") 100)%list |}.

(** A table that has the column [action] and no row. *)
Definition no_rows_frame : Frame.t :=
  {| Frame.columns := ["action"]; Frame.rows := [] |}.

(** Three rows, three keys: a string, null and the empty string. *)
Definition thirds_frame : Frame.t :=
  {| Frame.columns := ["rule_name"];
     Frame.rows := [ [("rule_name", Str "a")];
                     [("rule_name", Null)];
                     [("rule_name", Str EmptyString)] ] |}.

(** Four rows over two minutes, one of them without a bucket. *)
Definition two_minutes_frame : Frame.t :=
  {| Frame.columns := ["minute_bucket"];
     Frame.rows := [ [("minute_bucket", Datetime 1762300860000000)];
                     [("minute_bucket", Null)];
                     [("minute_bucket", Datetime 1762300800000000)];
                     [("minute_bucket", Datetime 1762300860000000)] ] |}.

(** A bucket is null or a datetime Python can hold. *)
Definition bucket_ok (v : value) : bool :=
  match v with
  | Null => true
  | Datetime us =>
      match to_datetime us with Some _ => true | None => false end
  | _ => false
  end.

Definition buckets_are_datetimes (frame : Frame.t) : Prop :=
  forall r, In r (Frame.rows frame) ->
            bucket_ok (cell "minute_bucket" r) = true.

(** The groups a call of [collect_top_counts] aggregates. *)
Definition top_groups (frame : Frame.t) (column bytes_column : string)
  : list group :=
  group_by column
           (if has_column bytes_column frame then Some bytes_column
            else None)
           (Frame.rows frame).

(** The cutoff of [collect_noise_candidates]:
    [total_events * (threshold / 100.0)]. *)
Definition cutoff (frame : Frame.t) (threshold : float) : float :=
  (to_float (height frame) * (threshold / 100))%float.

(** [events >= cutoff] *)
Definition reaches (frame : Frame.t) (threshold : float) (g : group) : bool :=
  (cutoff frame threshold <=? to_float (events g))%float.

End TableSpec.

(* ------------------------------------------------------------------------- *)
(** * Statements about parse runs                                             *)
(* ------------------------------------------------------------------------- *)

Module RunSpec.
Import Gen.

Section Parser.
Context {P : Type}.

(** A run with a progress callback and the run without it agree on the
    result, the statistics and the records; the callback has been applied
    once to the length of each line read, in order. *)
Definition callback_inert
           (parse : string -> Stats.t -> option (Z -> P -> P) -> P ->
                    result unit * world P) : Prop :=
  forall cb path st p,
    let r0 := parse path st None p in
    let r1 := parse path st (Some cb) p in
    fst r1 = fst r0
    /\ stats (snd r1) = stats (snd r0)
    /\ yielded (snd r1) = yielded (snd r0)
    /\ progress (snd r0) = p
    /\ progress (snd r1)
       = feed cb (firstn (lines_read (snd r1)) (Py.open_text path)) p
    /\ (fst r1 = Done tt ->
        lines_read (snd r1) = List.length (Py.open_text path)).

(** The run reads every line and ends without an exception. *)
Definition always_completes
           (parse : string -> Stats.t -> option (Z -> P -> P) -> P ->
                    result unit * world P) : Prop :=
  forall cb path st p,
    fst (parse path st cb p) = Done tt
    /\ lines_read (snd (parse path st cb p))
       = List.length (Py.open_text path).

(** The reason [empty] is counted exactly for the lines that are empty
    once the trailing newline is stripped; a line of white space only is
    counted under [mismatch]; neither yields a record. *)
Definition empty_rule
           (body : option (Z -> P -> P) -> string -> M P unit)
           (mismatch : string) : Prop :=
  forall cb raw (w : world P),
    let line := Py.rstrip_nl raw in
    let w' := snd (body cb raw w) in
    (Stats.rejected_count "empty" (stats w')
     = Stats.rejected_count "empty" (stats w) + 1
     <-> line = EmptyString)
    /\ (line = EmptyString ->
        fst (body cb raw w) = Done tt /\ rejected_as "empty" w w')
    /\ (Py.str_isspace line = true ->
        fst (body cb raw w) = Done tt /\ rejected_as mismatch w w').
End Parser.

(** The line of the specification's scenario and the record it yields. *)
Definition sample_meraki_record : record :=
  [ ("syslog_month", Some "Nov"); ("syslog_day", Some "5");
    ("syslog_time", Some "00:00:04"); ("host_ip", Some "90.102.85.18");
    ("priority", Some "1"); ("epoch_timestamp", Some "1762300804.143040390");
    ("device_type", Some "ROUTER"); ("event_type", Some "ip_flow_end");
    ("message", Some "src=10.10.0.102 dst=35.153.85.208 protocol=6");
    ("log_level", Some "info"); ("category", Some "network-flow");
    ("src", Some "10.10.0.102"); ("dst", Some "35.153.85.208");
    ("protocol", Some "6"); ("sport", None); ("dport", None);
    ("mac", None); ("translated_src_ip", None); ("translated_port", None);
    ("pattern", None) ].

(** A CEF line whose severity is a word. *)
Definition cef_word_severity_line : string :=
  "Nov  5 00:00:04 gw CEF:0|Ubiquiti|UniFi|1.0|100|Threat|High|msg=x".

(** The line made of U+00E9 and a newline: two characters, three bytes. *)
Definition e_acute_line : string :=
  String (ascii_of_nat 233) (String Py.newline EmptyString).

(** A line of a space, a tab and a carriage return, with its newline. *)
Definition blank_line : string :=
  String " " (String (ascii_of_nat 9) (String (ascii_of_nat 13)
    (String Py.newline EmptyString))).

(** A file of one blank line that ends in CR LF. *)
Definition crlf_blank_file : string :=
  String Py.carriage_return (String Py.newline EmptyString).

(** A file of one line of a space and a tab, ending in a newline. *)
Definition space_tab_file : string :=
  String " " (String (ascii_of_nat 9) (String Py.newline EmptyString)).

(** What the text layer guarantees of each line it hands over. *)
Definition file_lines_rule : Prop :=
  forall path raw_line,
    In raw_line (Py.open_text path) ->
    Py.no_cr raw_line = true
    /\ Py.file_line raw_line (Py.rstrip_nl raw_line).

End RunSpec.

(* ========================================================================= *)
(** * Properties                                                              *)
(* ========================================================================= *)

(** ** Dictionaries and ParseStats *)

Module StatsFacts.
Import Stats.

Lemma get_set_same (k : string) (v : Z) (d : Py.dict Z) :
  Py.get k (Py.set k v d) = Some v.
Proof.
  induction d as [|[k' v'] d IH]; simpl.
  - now rewrite String.eqb_refl.
  - destruct (String.eqb k k') eqn:E; simpl; rewrite E; auto.
Qed.

Lemma get_set_other (k k' : string) (v : Z) (d : Py.dict Z) :
  String.eqb k k' = false -> Py.get k (Py.set k' v d) = Py.get k d.
Proof.
  intros Hne. induction d as [|[k2 v2] d IH]; simpl.
  - now rewrite Hne.
  - destruct (String.eqb k' k2) eqn:E; simpl.
    + apply String.eqb_eq in E. subst k2. now rewrite Hne.
    + destruct (String.eqb k k2); auto.
Qed.

Lemma total_set (k : string) (v : Z) (d : Py.dict Z) :
  Py.sum (Py.values (Py.set k v d))
  = Py.sum (Py.values d)
    - match Py.get k d with Some n => n | None => 0 end + v.
Proof.
  unfold Py.sum. induction d as [|[k' v'] d IH]; simpl.
  - lia.
  - destruct (String.eqb k k') eqn:E; simpl in *; lia.
Qed.

Lemma rejected_total_note_failure (reason : string) (st : t) :
  rejected_total (note_failure reason st) = rejected_total st + 1.
Proof.
  unfold rejected_total, note_failure, Py.mem. simpl.
  destruct (Py.get reason (rejected st)) as [n|] eqn:G; simpl.
  - rewrite G, total_set, G. lia.
  - rewrite get_set_same, !total_set, get_set_same, G. lia.
Qed.

Lemma rejected_count_note_failure (k reason : string) (st : t) :
  rejected_count k (note_failure reason st)
  = rejected_count k st + (if String.eqb k reason then 1 else 0).
Proof.
  unfold rejected_count, note_failure, Py.mem. simpl.
  destruct (Py.get reason (rejected st)) as [n|] eqn:G; simpl.
  - rewrite G. destruct (String.eqb k reason) eqn:E.
    + apply String.eqb_eq in E. subst k. now rewrite get_set_same, G.
    + rewrite get_set_other by assumption. destruct (Py.get k _); lia.
  - rewrite get_set_same. destruct (String.eqb k reason) eqn:E.
    + apply String.eqb_eq in E. subst k. now rewrite get_set_same, G.
    + rewrite !get_set_other by assumption. destruct (Py.get k _); lia.
Qed.

Lemma invariant_fresh : invariant fresh.
Proof. reflexivity. Qed.

Lemma invariant_note_success (st : t) :
  invariant st -> invariant (note_success st).
Proof. unfold invariant, rejected_total. simpl. lia. Qed.

Lemma invariant_note_failure (reason : string) (st : t) :
  invariant st -> invariant (note_failure reason st).
Proof.
  unfold invariant. rewrite rejected_total_note_failure. simpl. lia.
Qed.

End StatsFacts.

(** ** What one line does to a run

    Whatever the vendor, the body of the loop calls the progress callback and
    then settles the line in one of three ways. *)

Module GenFacts.
Import Gen.

Section Settle.
Context {P : Type}.
Local Open Scope gen_scope.

Lemma for_each_line_cons (f : string -> M P unit) raw rest w :
  for_each_line (raw :: rest) f w
  = match f raw (after_read w) with
    | (Done _, w') => for_each_line rest f w'
    | (Raised e, w') => (Raised e, w')
    end.
Proof. reflexivity. Qed.

Variable body : option (Z -> P -> P) -> string -> M P unit.
Variable verdict : string -> outcome.
Hypothesis Hbody : settles body verdict.

Lemma body_stats_invariant cb raw w :
  Stats.invariant (stats w) ->
  Stats.invariant (stats (snd (body cb raw w))).
Proof.
  intros Hw. rewrite Hbody. unfold bind, call_progress.
  destruct cb; destruct (verdict raw); simpl;
    auto using StatsFacts.invariant_note_success,
               StatsFacts.invariant_note_failure.
Qed.

Lemma run_stats_invariant cb handle w :
  Stats.invariant (stats w) ->
  Stats.invariant (stats (snd (for_each_line handle (body cb) w))).
Proof.
  revert w. induction handle as [|raw rest IH]; intros w Hw; auto.
  rewrite for_each_line_cons.
  pose proof (body_stats_invariant cb raw (after_read w) Hw) as Hb.
  destruct (body cb raw _) as [[[]|e] w']; simpl in *; auto.
Qed.

(** The callback sees the lengths of the lines read, in order, and the
    rest of the run does not depend on it. *)
Lemma body_set_progress raw w q :
  body None raw (set_progress q w)
  = (fst (body None raw w), set_progress q (snd (body None raw w))).
Proof.
  rewrite !Hbody. unfold bind, call_progress.
  destruct (verdict raw); reflexivity.
Qed.

Lemma body_with_callback cb raw w :
  body (Some cb) raw w
  = (fst (body None raw w),
     set_progress (cb (Py.len raw) (progress w)) (snd (body None raw w))).
Proof.
  rewrite !Hbody. unfold bind, call_progress.
  destruct (verdict raw); reflexivity.
Qed.

Lemma body_progress_None raw w :
  progress (snd (body None raw w)) = progress w
  /\ lines_read (snd (body None raw w)) = lines_read w.
Proof.
  rewrite Hbody. unfold bind, call_progress.
  destruct (verdict raw); split; reflexivity.
Qed.

Lemma run_with_callback cb handle w :
  let r0 := for_each_line handle (body None) w in
  let r1 := for_each_line handle (body (Some cb)) w in
  fst r1 = fst r0
  /\ stats (snd r1) = stats (snd r0)
  /\ yielded (snd r1) = yielded (snd r0)
  /\ lines_read (snd r1) = lines_read (snd r0)
  /\ progress (snd r0) = progress w
  /\ (lines_read w <= lines_read (snd r1) <= lines_read w + List.length handle)%nat
  /\ progress (snd r1)
     = feed cb (firstn (lines_read (snd r1) - lines_read w) handle)
            (progress w)
  /\ (fst r1 = Done tt ->
      lines_read (snd r1) = (lines_read w + List.length handle)%nat).
Proof.
  cbv zeta.
  assert (G : forall q,
    for_each_line handle (body (Some cb)) (set_progress q w)
    = (fst (for_each_line handle (body None) w),
       set_progress
         (feed cb (firstn (lines_read
                             (snd (for_each_line handle (body None) w))
                           - lines_read w) handle) q)
         (snd (for_each_line handle (body None) w)))
    /\ progress (snd (for_each_line handle (body None) w)) = progress w
    /\ (lines_read w
        <= lines_read (snd (for_each_line handle (body None) w))
        <= lines_read w + List.length handle)%nat
    /\ (fst (for_each_line handle (body None) w) = Done tt ->
        lines_read (snd (for_each_line handle (body None) w))
        = (lines_read w + List.length handle)%nat)).
  { revert w. induction handle as [|raw rest IH]; intros w q.
    - simpl. rewrite Nat.sub_diag. repeat split; auto; lia.
    - rewrite !for_each_line_cons.
      change (after_read (set_progress q w))
        with (set_progress q (after_read w)).
      rewrite body_with_callback, body_set_progress. simpl fst. simpl snd.
      destruct (body_progress_None raw (after_read w)) as [Hp Hl].
      simpl in Hp, Hl.
      destruct (body None raw (after_read w)) as [[[]|e] w2] eqn:E;
        simpl in *.
      + destruct (IH w2 (cb (Py.len raw) q)) as (H1 & H2 & H3 & H4).
        change (set_progress (cb (Py.len raw) q) (set_progress q w2))
          with (set_progress (cb (Py.len raw) q) w2).
        rewrite H1. rewrite Hl in *.
        replace (lines_read (snd (for_each_line rest (body None) w2))
                 - lines_read w)%nat
          with (S (lines_read (snd (for_each_line rest (body None) w2))
                   - S (lines_read w)))%nat by lia.
        simpl. repeat split; try lia; try congruence.
        intros Hd. specialize (H4 Hd). lia.
      + rewrite Hl.
        replace (S (lines_read w) - lines_read w)%nat with 1%nat by lia.
        simpl. repeat split; auto; try lia; discriminate. }
  destruct (G (progress w)) as (H1 & H2 & H3 & H4).
  replace (set_progress (progress w) w) with w in H1
    by (destruct w; reflexivity).
  rewrite H1. simpl. repeat split; auto; lia.
Qed.

(** When no line can abort, the run reads the whole file and ends
    normally. *)
Hypothesis Hnever : forall raw e, verdict raw <> Escape e.

Lemma run_completes cb handle w :
  fst (for_each_line handle (body cb) w) = Done tt
  /\ lines_read (snd (for_each_line handle (body cb) w))
     = (lines_read w + List.length handle)%nat.
Proof.
  revert w. induction handle as [|raw rest IH]; intros w.
  - simpl. split; auto.
  - rewrite for_each_line_cons.
    rewrite Hbody. unfold bind, call_progress, after_read.
    specialize (Hnever raw).
    destruct cb; destruct (verdict raw) eqn:V; simpl;
      try (exfalso; eapply Hnever; reflexivity);
      match goal with
      | |- context [for_each_line rest _ ?w'] =>
          destruct (IH w') as [H1 H2]; rewrite H1, H2; simpl;
          split; auto; lia
      end.
Qed.
End Settle.

End GenFacts.

(** ** The four loop bodies settle every line *)

Module ParserFacts.
Import Gen GenFacts Verdict.
Local Open Scope gen_scope.

Lemma observe_reject n reason :
  observe (call_progress None n ;; note_failure reason) = Reject reason.
Proof.
  unfold observe, bind, call_progress, note_failure, Stats.note_failure; simpl.
  now rewrite !String.eqb_refl.
Qed.

Lemma observe_accept n r :
  observe (call_progress None n ;; (note_success ;; yield r)) = Accept r.
Proof. reflexivity. Qed.

Lemma observe_abort n e :
  observe (call_progress None n ;; raise e) = Escape e.
Proof. reflexivity. Qed.

Ltac settled :=
  first [ rewrite observe_reject | rewrite observe_accept
        | rewrite observe_abort ];
  reflexivity.

Lemma meraki_settles (P : Type) :
  settles (P := P) Meraki.body meraki_verdict.
Proof.
  intros cb raw. unfold meraki_verdict, Meraki.body.
  destruct (String.eqb _ _); [settled|].
  destruct (Re.match_ _ _); settled.
Qed.

Lemma watchguard_settles (P : Type) :
  settles (P := P) WatchGuard.body watchguard_verdict.
Proof.
  intros cb raw. unfold watchguard_verdict, WatchGuard.body.
  destruct (String.eqb _ _); [settled|].
  destruct (Re.match_ _ _); settled.
Qed.

Lemma paloalto_settles (P : Type) :
  settles (P := P) PaloAlto.body paloalto_verdict.
Proof.
  intros cb raw. unfold paloalto_verdict, PaloAlto.body.
  destruct (String.eqb _ _); [settled|].
  destruct (Re.match_ _ _); [|settled].
  destruct (Csv.read_row _); settled.
Qed.

Lemma unifi_settles (P : Type) :
  settles (P := P) UniFi.body unifi_verdict.
Proof.
  intros cb raw. unfold unifi_verdict, UniFi.body.
  destruct (String.eqb _ _); [settled|].
  destruct (Py.startswith_any _ _); [settled|].
  destruct (Re.match_ UniFi.CEF_PATTERN _).
  - destruct (Py.int _); settled.
  - destruct (Re.match_ _ _); settled.
Qed.

Lemma meraki_never_aborts raw e : meraki_verdict raw <> Escape e.
Proof.
  unfold meraki_verdict, Meraki.body.
  destruct (String.eqb _ _); [rewrite observe_reject; discriminate|].
  destruct (Re.match_ _ _);
    [rewrite observe_accept | rewrite observe_reject]; discriminate.
Qed.

Lemma watchguard_never_aborts raw e : watchguard_verdict raw <> Escape e.
Proof.
  unfold watchguard_verdict, WatchGuard.body.
  destruct (String.eqb _ _); [rewrite observe_reject; discriminate|].
  destruct (Re.match_ _ _);
    [rewrite observe_accept | rewrite observe_reject]; discriminate.
Qed.

Lemma paloalto_never_aborts raw e : paloalto_verdict raw <> Escape e.
Proof.
  unfold paloalto_verdict, PaloAlto.body.
  destruct (String.eqb _ _); [rewrite observe_reject; discriminate|].
  destruct (Re.match_ _ _); [|rewrite observe_reject; discriminate].
  destruct (Csv.read_row _);
    [rewrite observe_reject | rewrite observe_accept]; discriminate.
Qed.

End ParserFacts.

(** ** Lines that cannot start a syslog header *)

Module HeaderFacts.
Import Re.

Lemma space_not_word (c : ascii) : Py.isspace c = true -> word c = false.
Proof.
  destruct c as [b0 b1 b2 b3 b4 b5 b6 b7].
  destruct b0, b1, b2, b3, b4, b5, b6, b7; vm_compute; congruence.
Qed.

Lemma run_rep_chr_fail {A} greedy lo hi p c s pos g
      (k : string -> nat -> groups -> option A) :
  p c = false ->
  run (Rep greedy (S lo) hi (Chr p)) (String c s) pos g k = None.
Proof.
  intros Hp. simpl. rewrite Hp.
  destruct greedy, hi as [h|]; try destruct (Nat.ltb 0 h); reflexivity.
Qed.

(** Every pattern of the four parsers opens with [^(?P<month>\w{3})]. *)
Lemma month_head_fail (rest : regex) (c : ascii) (s : string) :
  word c = false ->
  match_ (Seq Bos (Seq (Grp "month" (times 3 (Chr word))) rest))
         (String c s) = None.
Proof.
  intros Hc. unfold match_, times.
  change (run (Seq Bos ?r) ?s 0%nat ?g ?k) with (run r s 0%nat g k).
  change (run (Seq (Grp ?n ?a) ?b) ?s ?pos ?g ?k)
    with (run a s pos g
              (fun s' pos' g' =>
                 run b s' pos' (Py.set n (Py.take (pos' - pos) s) g') k)).
  now apply run_rep_chr_fail.
Qed.

Lemma blank_head (line : string) :
  Py.str_isspace line = true ->
  exists c s, line = String c s /\ word c = false.
Proof.
  unfold Py.str_isspace. destruct line as [|c s]; simpl; [discriminate|].
  intros H. apply andb_prop in H as [Hc _].
  exists c, s. split; auto using space_not_word.
Qed.

Lemma lstrip_blank (line : string) :
  Py.all_chars Py.isspace line = true -> Py.lstrip line = EmptyString.
Proof.
  unfold Py.lstrip. induction line as [|c s IH]; simpl; auto.
  intros H. apply andb_prop in H as [Hc Hs]. rewrite Hc. auto.
Qed.

Lemma meraki_blank line :
  Py.str_isspace line = true -> match_ Meraki.MERAKI_PATTERN line = None.
Proof.
  intros H. destruct (blank_head line H) as (c & s & -> & Hc).
  unfold Meraki.MERAKI_PATTERN. cbn [seq]. now apply month_head_fail.
Qed.

Lemma watchguard_blank line :
  Py.str_isspace line = true ->
  match_ WatchGuard.WATCHGUARD_PATTERN line = None.
Proof.
  intros H. destruct (blank_head line H) as (c & s & -> & Hc).
  unfold WatchGuard.WATCHGUARD_PATTERN. cbn [seq]. now apply month_head_fail.
Qed.

Lemma paloalto_blank line :
  Py.str_isspace line = true -> match_ PaloAlto.SYSLOG_PREFIX line = None.
Proof.
  intros H. destruct (blank_head line H) as (c & s & -> & Hc).
  unfold PaloAlto.SYSLOG_PREFIX. cbn [seq]. now apply month_head_fail.
Qed.

Lemma unifi_blank line :
  Py.str_isspace line = true ->
  Py.startswith_any (Py.lstrip line)
                    ["{"; "}"; UniFi.dquote; "]"; "["] = false
  /\ match_ UniFi.CEF_PATTERN line = None
  /\ match_ UniFi.SYSLOG_PATTERN line = None.
Proof.
  intros H. split.
  - unfold Py.str_isspace in H. apply andb_prop in H as [_ H].
    now rewrite lstrip_blank.
  - destruct (blank_head line H) as (c & s & -> & Hc). split.
    + unfold UniFi.CEF_PATTERN. cbn [seq]. now apply month_head_fail.
    + unfold UniFi.SYSLOG_PATTERN. cbn [seq]. now apply month_head_fail.
Qed.

End HeaderFacts.

(** ** Parse runs *)

Section ParseRuns.
Import Gen GenFacts ParserFacts Verdict.
Context {P : Type}.

(** One line, one outcome, for a loop body that never aborts. *)
Lemma one_outcome body verdict :
  settles (P := P) body verdict ->
  (forall raw e, verdict raw <> Escape e) ->
  forall cb raw w,
    fst (body cb raw w) = Done tt
    /\ ((exists r, accepted r w (snd (body cb raw w)))
        \/ (exists reason, rejected_as reason w (snd (body cb raw w))))
    /\ ~ ((exists r, accepted r w (snd (body cb raw w)))
          /\ (exists reason, rejected_as reason w (snd (body cb raw w)))).
Proof.
  intros Hb Hn cb raw w. rewrite Hb. specialize (Hn raw).
  unfold bind, call_progress, accepted, rejected_as.
  destruct cb; destruct (verdict raw) as [r|reason|e]; simpl;
    try (exfalso; eapply Hn; reflexivity);
    (split; [reflexivity|]); (split; [eauto|]);
    intros [[r' [_ Hy]] [reason' [_ Hy']]];
    apply (f_equal (@List.length _)) in Hy, Hy';
    try rewrite length_app in Hy; try rewrite length_app in Hy';
    simpl in Hy, Hy'; lia.
Qed.

Lemma meraki_one_outcome cb raw (w : world P) :
  fst (Meraki.body cb raw w) = Done tt
  /\ ((exists r, accepted r w (snd (Meraki.body cb raw w)))
      \/ (exists reason, rejected_as reason w (snd (Meraki.body cb raw w))))
  /\ ~ ((exists r, accepted r w (snd (Meraki.body cb raw w)))
        /\ (exists reason,
               rejected_as reason w (snd (Meraki.body cb raw w)))).
Proof.
  apply (one_outcome _ _ (meraki_settles P) meraki_never_aborts).
Qed.

Lemma watchguard_one_outcome cb raw (w : world P) :
  fst (WatchGuard.body cb raw w) = Done tt
  /\ ((exists r, accepted r w (snd (WatchGuard.body cb raw w)))
      \/ (exists reason,
             rejected_as reason w (snd (WatchGuard.body cb raw w))))
  /\ ~ ((exists r, accepted r w (snd (WatchGuard.body cb raw w)))
        /\ (exists reason,
               rejected_as reason w (snd (WatchGuard.body cb raw w)))).
Proof.
  apply (one_outcome _ _ (watchguard_settles P) watchguard_never_aborts).
Qed.

Lemma paloalto_one_outcome cb raw (w : world P) :
  fst (PaloAlto.body cb raw w) = Done tt
  /\ ((exists r, accepted r w (snd (PaloAlto.body cb raw w)))
      \/ (exists reason,
             rejected_as reason w (snd (PaloAlto.body cb raw w))))
  /\ ~ ((exists r, accepted r w (snd (PaloAlto.body cb raw w)))
        /\ (exists reason,
               rejected_as reason w (snd (PaloAlto.body cb raw w)))).
Proof.
  apply (one_outcome _ _ (paloalto_settles P) paloalto_never_aborts).
Qed.

(** The UniFi body keeps to the contract on every line but a CEF line whose
    severity [int()] refuses; there it raises, and nothing is counted. *)
Lemma unifi_outcome cb raw (w : world P) :
  (fst (UniFi.body cb raw w) = Done tt
   /\ ((exists r, accepted r w (snd (UniFi.body cb raw w)))
       \/ (exists reason,
              rejected_as reason w (snd (UniFi.body cb raw w)))))
  \/ (exists cef_match,
         Re.match_ UniFi.CEF_PATTERN (Py.rstrip_nl raw) = Some cef_match
         /\ Py.int (Re.text cef_match "severity") = None
         /\ fst (UniFi.body cb raw w)
            = Raised (ValueError (Re.text cef_match "severity"))
         /\ stats (snd (UniFi.body cb raw w)) = stats w
         /\ yielded (snd (UniFi.body cb raw w)) = yielded w).
Proof.
  unfold UniFi.body, bind, call_progress, accepted, rejected_as.
  destruct cb; cbv beta iota zeta;
    (destruct (String.eqb (Py.rstrip_nl raw) EmptyString);
     [left; split; [reflexivity | right; eexists; split; reflexivity]|]);
    (destruct (Py.startswith_any _ _);
     [left; split; [reflexivity | right; eexists; split; reflexivity]|]);
    (destruct (Re.match_ UniFi.CEF_PATTERN (Py.rstrip_nl raw)) as [m|];
     cbv beta iota;
     [ destruct (Py.int (Re.text m "severity")) eqn:Hi; cbv beta iota;
       [ left; split; [reflexivity | left; eexists; split; reflexivity]
       | right; exists m; split; [reflexivity|]; split; [exact Hi|];
         split; [reflexivity|]; split; reflexivity ]
     | destruct (Re.match_ UniFi.SYSLOG_PATTERN (Py.rstrip_nl raw));
       [ left; split; [reflexivity | left; eexists; split; reflexivity]
       | left; split; [reflexivity | right; eexists; split; reflexivity] ] ]).
Qed.
End ParseRuns.

(** ** The lines of a text file *)

Module TextFacts.

Lemma all_chars_app p a b :
  Py.all_chars p (a ++ b) = (Py.all_chars p a && Py.all_chars p b)%bool.
Proof.
  induction a as [|c a IH]; simpl; auto. rewrite IH. apply andb_assoc.
Qed.

Lemma universal_newlines_no_cr text :
  Py.no_cr (Py.universal_newlines text) = true.
Proof.
  unfold Py.no_cr.
  assert (G : forall n text, (String.length text <= n)%nat ->
              Py.all_chars (fun c => negb (Py.is_char Py.carriage_return c))
                           (Py.universal_newlines text) = true).
  { clear text. induction n as [|n IH]; intros [|c rest] Hl;
      cbn [String.length] in Hl; try reflexivity; try lia.
    cbn [Py.universal_newlines].
    destruct (Py.is_char Py.carriage_return c) eqn:E.
    - cbn [Py.all_chars].
      change (negb (Py.is_char Py.carriage_return Py.newline)) with true.
      cbn [andb].
      destruct rest as [|c' rest']; [reflexivity|].
      cbn [String.length] in Hl.
      destruct (Py.is_char Py.newline c'); apply IH; cbn [String.length];
        lia.
    - cbn [Py.all_chars]. rewrite E. cbn [negb andb]. apply IH. lia. }
  apply (G (String.length text)). lia.
Qed.

Lemma lines_from_no_cr text : forall line raw_line,
  Py.no_cr line = true -> Py.no_cr text = true ->
  In raw_line (Py.lines_from line text) -> Py.no_cr raw_line = true.
Proof.
  unfold Py.no_cr.
  induction text as [|c rest IH]; cbn [Py.lines_from Py.all_chars];
    intros line raw Hl Ht Hin.
  - destruct line; [destruct Hin|].
    destruct Hin as [<-|[]]. exact Hl.
  - apply andb_prop in Ht as [Hc Hr].
    destruct (Py.is_char Py.newline c) eqn:E.
    + destruct Hin as [<-|Hin].
      * rewrite all_chars_app, Hl. reflexivity.
      * now apply (IH EmptyString raw).
    + apply (IH (line ++ String c EmptyString)%string raw); auto.
      rewrite all_chars_app, Hl. cbn [Py.all_chars andb].
      now rewrite Hc.
Qed.

Lemma rstrip_nl_no_newline (s : string) :
  Py.no_newline s = true -> Py.rstrip_nl s = s.
Proof.
  unfold Py.rstrip_nl, Py.no_newline. induction s as [|c s IH]; simpl; auto.
  intros H. apply andb_prop in H as [Hc Hs]. rewrite (IH Hs).
  destruct s; auto. apply negb_true_iff in Hc. now rewrite Hc.
Qed.

Lemma rstrip_nl_terminated (s : string) :
  Py.no_newline s = true ->
  Py.rstrip_nl (s ++ String Py.newline EmptyString) = s.
Proof.
  unfold Py.rstrip_nl, Py.no_newline. induction s as [|c s IH]; simpl; auto.
  intros H. apply andb_prop in H as [Hc Hs]. rewrite (IH Hs).
  destruct s; auto. apply negb_true_iff in Hc. now rewrite Hc.
Qed.

Lemma lines_from_file_line text : forall line raw_line,
  Py.no_newline line = true ->
  In raw_line (Py.lines_from line text) ->
  Py.file_line raw_line (Py.rstrip_nl raw_line).
Proof.
  unfold Py.file_line.
  induction text as [|c rest IH]; cbn [Py.lines_from];
    intros line raw Hl Hin.
  - destruct line as [|c l] eqn:L; [destruct Hin|].
    destruct Hin as [<-|[]]. rewrite (rstrip_nl_no_newline _ Hl).
    split; auto. right. split; [reflexivity | discriminate].
  - destruct (Py.is_char Py.newline c) eqn:E.
    + destruct Hin as [<-|Hin].
      * rewrite (rstrip_nl_terminated _ Hl). auto.
      * now apply (IH EmptyString raw).
    + apply (IH (line ++ String c EmptyString)%string raw); auto.
      unfold Py.no_newline in *. rewrite all_chars_app, Hl.
      cbn [Py.all_chars andb]. now rewrite E.
Qed.

Lemma file_lines : RunSpec.file_lines_rule.
Proof.
  intros path raw Hin. unfold Py.open_text in Hin. split.
  - apply (lines_from_no_cr (Py.universal_newlines path) EmptyString raw);
      auto using universal_newlines_no_cr.
  - now apply (lines_from_file_line (Py.universal_newlines path)
                                    EmptyString raw).
Qed.

End TextFacts.

(** ** The rule for empty and blank lines *)

Module EmptyRule.
Import Gen GenFacts ParserFacts Verdict RunSpec.

Lemma from_verdict {P} (body : option (Z -> P -> P) -> string -> M P unit)
      verdict mismatch :
  settles body verdict ->
  (forall raw, Py.rstrip_nl raw = EmptyString ->
               verdict raw = Reject "empty") ->
  (forall raw, Py.rstrip_nl raw <> EmptyString ->
               verdict raw <> Reject "empty") ->
  (forall raw, Py.str_isspace (Py.rstrip_nl raw) = true ->
               verdict raw = Reject mismatch) ->
  empty_rule body mismatch.
Proof.
  intros Hb He Hne Hblank cb raw w. cbv zeta.
  rewrite Hb. split; [|split].
  - split.
    + intros Hcount.
      destruct (String.eqb (Py.rstrip_nl raw) EmptyString) eqn:E;
        [now apply String.eqb_eq in E|].
      apply String.eqb_neq in E. specialize (Hne raw E). exfalso.
      revert Hcount. unfold bind, call_progress.
      destruct cb; destruct (verdict raw) as [r|reason|e]; simpl;
        try rewrite StatsFacts.rejected_count_note_failure;
        try (unfold Stats.rejected_count; simpl; lia);
        (destruct (String.eqb "empty" reason) eqn:R;
         [apply String.eqb_eq in R; subst reason; now elim Hne | lia]).
    + intros E. rewrite (He raw E). unfold bind, call_progress.
      destruct cb; simpl;
        now rewrite StatsFacts.rejected_count_note_failure.
  - intros E. rewrite (He raw E). unfold bind, call_progress, rejected_as.
    destruct cb; simpl; auto.
  - intros E. rewrite (Hblank raw E).
    unfold bind, call_progress, rejected_as.
    destruct cb; simpl; auto.
Qed.

Lemma blank_not_empty line :
  Py.str_isspace line = true -> String.eqb line EmptyString = false.
Proof.
  unfold Py.str_isspace. intros H. apply andb_prop in H as [H _].
  now apply negb_true_iff in H.
Qed.

Lemma meraki (P : Type) :
  empty_rule (P := P) Meraki.body "format-mismatch".
Proof.
  apply (from_verdict _ _ _ (meraki_settles P));
    intros raw H; unfold meraki_verdict, Meraki.body.
  - rewrite H. apply observe_reject.
  - apply String.eqb_neq in H. rewrite H.
    destruct (Re.match_ _ _);
      [rewrite observe_accept | rewrite observe_reject]; discriminate.
  - rewrite (blank_not_empty _ H), (HeaderFacts.meraki_blank _ H).
    apply observe_reject.
Qed.

Lemma watchguard (P : Type) :
  empty_rule (P := P) WatchGuard.body "format-mismatch".
Proof.
  apply (from_verdict _ _ _ (watchguard_settles P));
    intros raw H; unfold watchguard_verdict, WatchGuard.body.
  - rewrite H. apply observe_reject.
  - apply String.eqb_neq in H. rewrite H.
    destruct (Re.match_ _ _);
      [rewrite observe_accept | rewrite observe_reject]; discriminate.
  - rewrite (blank_not_empty _ H), (HeaderFacts.watchguard_blank _ H).
    apply observe_reject.
Qed.

Lemma paloalto (P : Type) :
  empty_rule (P := P) PaloAlto.body "missing-prefix".
Proof.
  apply (from_verdict _ _ _ (paloalto_settles P));
    intros raw H; unfold paloalto_verdict, PaloAlto.body.
  - rewrite H. apply observe_reject.
  - apply String.eqb_neq in H. rewrite H.
    destruct (Re.match_ _ _); [|rewrite observe_reject; discriminate].
    destruct (Csv.read_row _);
      [rewrite observe_reject | rewrite observe_accept]; discriminate.
  - rewrite (blank_not_empty _ H), (HeaderFacts.paloalto_blank _ H).
    apply observe_reject.
Qed.

Lemma unifi (P : Type) :
  empty_rule (P := P) UniFi.body "format-mismatch".
Proof.
  apply (from_verdict _ _ _ (unifi_settles P));
    intros raw H; unfold unifi_verdict, UniFi.body.
  - rewrite H. apply observe_reject.
  - apply String.eqb_neq in H. rewrite H.
    destruct (Py.startswith_any _ _); [rewrite observe_reject; discriminate|].
    destruct (Re.match_ UniFi.CEF_PATTERN _).
    + destruct (Py.int _);
        [rewrite observe_accept | rewrite observe_abort]; discriminate.
    + destruct (Re.match_ _ _);
        [rewrite observe_accept | rewrite observe_reject]; discriminate.
  - destruct (HeaderFacts.unifi_blank _ H) as (H1 & H2 & H3).
    rewrite (blank_not_empty _ H), H1, H2, H3.
    apply observe_reject.
Qed.

End EmptyRule.

(* ========================================================================= *)
(** * The claims about parsing                                                *)
(* ========================================================================= *)

Section ParsingClaims.
Import Gen GenFacts ParserFacts Verdict RunSpec.

(** C1.  The counters of [ParseStats] always add up: a fresh [ParseStats]
    satisfies [total_lines = parsed + sum(rejected.values())]; from
    statistics that satisfy it, [note_success] and [note_failure] lead to
    statistics that satisfy it, and so does a run of any of the four parsers
    over any sequence of lines, with or without a callback, whether the run
    ends normally or by an exception (each prefix of a file being itself a
    sequence of lines, the invariant holds after every line). *)
Theorem parse_stats_invariant :
  Stats.invariant Stats.fresh
  /\ forall st, Stats.invariant st ->
       Stats.invariant (Stats.note_success st)
       /\ (forall reason, Stats.invariant (Stats.note_failure reason st))
       /\ (forall (P : Type) path cb (p : P),
            Stats.invariant (stats (snd (Meraki.parse path st cb p)))
            /\ Stats.invariant (stats (snd (UniFi.parse path st cb p)))
            /\ Stats.invariant
                 (stats (snd (WatchGuard.parse path st cb p)))
            /\ Stats.invariant
                 (stats (snd (PaloAlto.parse path st cb p)))).
Proof.
  split; [apply StatsFacts.invariant_fresh|].
  intros st Hst.
  split; [now apply StatsFacts.invariant_note_success|].
  split; [intros; now apply StatsFacts.invariant_note_failure|].
  intros P path cb p.
  unfold Meraki.parse, UniFi.parse, WatchGuard.parse, PaloAlto.parse.
  cbv zeta.
  refine (conj _ (conj _ (conj _ _))).
  - apply (run_stats_invariant _ _ (meraki_settles P)); exact Hst.
  - apply (run_stats_invariant _ _ (unifi_settles P)); exact Hst.
  - apply (run_stats_invariant _ _ (watchguard_settles P)); exact Hst.
  - apply (run_stats_invariant _ _ (paloalto_settles P)); exact Hst.
Qed.

Lemma parse_stats_invariant_witness :
  Stats.invariant Stats.fresh
  /\ Stats.invariant
       (stats (snd (UniFi.parse
                      (sample_meraki_line ++ blank_line
                       ++ cef_word_severity_line)
                      Stats.fresh None tt))).
Proof.
  split; [reflexivity|].
  exact (proj1 (proj2
           (proj2 (proj2 (proj2 parse_stats_invariant Stats.fresh
                                (eq_refl : Stats.invariant Stats.fresh)))
                  unit _ None tt))).
Defined.

(** C5.  On a CEF line whose severity field is not an integer literal the
    UniFi parser raises [ValueError] out of [parse]: the line is neither
    yielded nor counted as rejected. *)
Theorem unifi_cef_severity_raises :
  UniFi.parse cef_word_severity_line Stats.fresh None tt
  = (Raised (ValueError "High"),
     {| stats := Stats.fresh; yielded := []; progress := tt;
        lines_read := 1 |}).
Proof. vm_compute. reflexivity. Qed.

(** C6.  The Meraki parser on the line of the scenario: one record, with
    the six fields of the scenario; [parsed] and [total_lines] each grow by
    one, and the rejection counters are untouched. *)
Theorem meraki_sample_line_parsed
        (P : Type) (st : Stats.t) (cb : option (Z -> P -> P)) (p : P) :
  let run := Meraki.parse sample_meraki_line st cb p in
  fst run = Done tt
  /\ yielded (snd run) = [sample_meraki_record]
  /\ Py.get "event_type" sample_meraki_record = Some (Some "ip_flow_end")
  /\ Py.get "category" sample_meraki_record = Some (Some "network-flow")
  /\ Py.get "log_level" sample_meraki_record = Some (Some "info")
  /\ Py.get "src" sample_meraki_record = Some (Some "10.10.0.102")
  /\ Py.get "dst" sample_meraki_record = Some (Some "35.153.85.208")
  /\ Py.get "protocol" sample_meraki_record = Some (Some "6")
  /\ Stats.parsed (stats (snd run)) = Stats.parsed st + 1
  /\ Stats.total_lines (stats (snd run)) = Stats.total_lines st + 1
  /\ Stats.rejected (stats (snd run)) = Stats.rejected st.
Proof.
  assert (V : meraki_verdict sample_meraki_line
              = Accept sample_meraki_record) by (vm_compute; reflexivity).
  cbv zeta. unfold Meraki.parse.
  replace (Py.open_text sample_meraki_line) with [sample_meraki_line]
    by (vm_compute; reflexivity).
  cbv zeta. rewrite for_each_line_cons, (meraki_settles P), V.
  unfold bind, call_progress. destruct cb; simpl; repeat split.
Qed.



(** C9, as the code has it.  In each of the four parsers the reason
    [empty] is counted exactly for the lines that are empty once [rstrip]
    has removed the trailing newline; a line made only of white space
    (spaces, tabs) is counted under [format-mismatch] ([missing-prefix] for
    Palo Alto); in both cases no record is yielded.  No line carries a
    carriage return: the file is read in text mode, where CR LF and CR are
    read as a newline, and each line holds at most one newline, at its
    end. *)
Theorem empty_reason_only_for_empty_lines (P : Type) :
  empty_rule (P := P) Meraki.body "format-mismatch"
  /\ empty_rule (P := P) UniFi.body "format-mismatch"
  /\ empty_rule (P := P) WatchGuard.body "format-mismatch"
  /\ empty_rule (P := P) PaloAlto.body "missing-prefix"
  /\ file_lines_rule.
Proof.
  refine (conj _ (conj _ (conj _ (conj _ _)))).
  - apply EmptyRule.meraki.
  - apply EmptyRule.unifi.
  - apply EmptyRule.watchguard.
  - apply EmptyRule.paloalto.
  - apply TextFacts.file_lines.
Qed.

Lemma empty_reason_only_for_empty_lines_witness :
  Py.open_text space_tab_file = [space_tab_file]
  /\ Py.str_isspace (Py.rstrip_nl space_tab_file) = true
  /\ rejected_as "missing-prefix" (start Stats.fresh tt)
       (snd (PaloAlto.body None space_tab_file (start Stats.fresh tt))).
Proof.
  split; [reflexivity|]. split; [reflexivity|].
  exact (proj2 (proj2 (proj2 (proj1 (proj2 (proj2 (proj2
           (empty_reason_only_for_empty_lines unit))))
           None space_tab_file (start Stats.fresh tt))) eq_refl)).
Defined.

(** C9, as stated, fails on CR LF input: the blank line of such a file
    reaches the parser as a newline alone and is counted under [empty],
    not under [format-mismatch]. *)
Lemma crlf_blank_line_counts_as_empty :
  Py.open_text crlf_blank_file = [String Py.newline EmptyString]
  /\ Stats.rejected
       (stats (snd (Meraki.parse crlf_blank_file Stats.fresh None tt)))
     = [("empty", 1)]
  /\ Stats.rejected
       (stats (snd (UniFi.parse crlf_blank_file Stats.fresh None tt)))
     = [("empty", 1)]
  /\ Stats.rejected
       (stats (snd (WatchGuard.parse crlf_blank_file Stats.fresh None tt)))
     = [("empty", 1)]
  /\ Stats.rejected
       (stats (snd (PaloAlto.parse crlf_blank_file Stats.fresh None tt)))
     = [("empty", 1)]
  /\ Stats.rejected_count "format-mismatch"
       (stats (snd (Meraki.parse crlf_blank_file Stats.fresh None tt)))
     = 0.
Proof. vm_compute. repeat split. Qed.


End ParsingClaims.

(* ========================================================================= *)
(** * Properties of tables                                                    *)
(* ========================================================================= *)

(** ** Sorting *)

Module SortFacts.
Import Frame.

Section Sort.
Context {A : Type} (before : A -> A -> bool).

Lemma insert_perm x l : Permutation (x :: l) (insert before x l).
Proof.
  induction l as [|y l IH]; simpl; auto.
  destruct (before x y); auto.
  eapply perm_trans; [apply perm_swap|]. now constructor.
Qed.

Lemma sort_perm l : Permutation l (sort before l).
Proof.
  induction l as [|x l IH]; simpl; auto.
  eapply perm_trans; [|apply insert_perm]. now constructor.
Qed.

Lemma sort_length l : List.length (sort before l) = List.length l.
Proof. symmetry. apply Permutation_length, sort_perm. Qed.

Hypothesis total : forall a b, before a b = true \/ before b a = true.
Hypothesis trans :
  forall a b c, before a b = true -> before b c = true ->
                before a c = true.

Lemma insert_sorted x l :
  StronglySorted (rel before) l -> StronglySorted (rel before) (insert before x l).
Proof.
  induction 1 as [|y l Hs IH Hy]; simpl.
  - repeat constructor.
  - destruct (before x y) eqn:E.
    + constructor; [now constructor|].
      constructor; [exact E|].
      rewrite Forall_forall in *. intros z Hz.
      eapply trans; [exact E | now apply Hy].
    + constructor; auto.
      rewrite Forall_forall in *. intros z Hz.
      apply (Permutation_in _ (Permutation_sym (insert_perm x l))) in Hz.
      destruct Hz as [<-|Hz]; [|now apply Hy].
      destruct (total x y) as [H|H]; [congruence | exact H].
Qed.

Lemma sort_sorted l : StronglySorted (rel before) (sort before l).
Proof.
  induction l as [|x l IH]; simpl; [constructor | now apply insert_sorted].
Qed.

(** Two sorted arrangements of the same elements coincide when no two
    of the elements are tied. *)
Lemma sorted_perm_unique l1 l2 :
  StronglySorted (rel before) l1 -> StronglySorted (rel before) l2 ->
  Permutation l1 l2 ->
  (forall a b, In a l1 -> In b l1 ->
               before a b = true -> before b a = true -> a = b) ->
  l1 = l2.
Proof.
  intros H1. revert l2.
  induction H1 as [|x l1 Hs1 IH Hx]; intros l2 H2 Hp Hanti.
  - now apply Permutation_nil in Hp.
  - destruct l2 as [|y l2];
      [apply Permutation_sym, Permutation_nil in Hp; discriminate|].
    inversion H2 as [|? ? Hs2 Hy]; subst.
    assert (x = y) as ->.
    { rewrite Forall_forall in Hx, Hy.
      assert (Hyin : In y (x :: l1))
        by (apply (Permutation_in _ (Permutation_sym Hp)); now left).
      assert (Hxin : In x (y :: l2))
        by (apply (Permutation_in _ Hp); now left).
      destruct Hyin as [|Hyin]; [assumption|].
      destruct Hxin as [|Hxin]; [congruence|].
      apply Hanti; [now left | now right | now apply Hx | now apply Hy]. }
    f_equal. apply IH; auto.
    + now apply Permutation_cons_inv in Hp.
    + intros a b Ha Hb. apply Hanti; now right.
Qed.

Lemma sort_unique l l' :
  Permutation l l' ->
  (forall a b, In a l -> In b l ->
               before a b = true -> before b a = true -> a = b) ->
  sort before l = sort before l'.
Proof.
  intros Hp Hanti. apply sorted_perm_unique; auto using sort_sorted.
  - eapply perm_trans; [apply Permutation_sym, sort_perm|].
    eapply perm_trans; [exact Hp | apply sort_perm].
  - intros a b Ha Hb. apply Hanti;
      eapply Permutation_in; try apply Permutation_sym, sort_perm; auto.
Qed.
End Sort.

(** What a slice keeps and what it leaves. *)
Lemma slice_to_firstn {A} (n : Z) (l : list A) :
  exists k, Py.slice_to n l = firstn k l.
Proof. unfold Py.slice_to. destruct (n >=? 0); eauto. Qed.

Lemma slice_to_length {A} (n : Z) (l : list A) :
  0 <= n -> Z.of_nat (List.length (Py.slice_to n l)) <= n.
Proof.
  intros Hn. unfold Py.slice_to.
  destruct (n >=? 0) eqn:E; [|lia].
  rewrite length_firstn. lia.
Qed.

Lemma slice_to_negative {A} (n : Z) (l : list A) :
  n < 0 ->
  Z.of_nat (List.length (Py.slice_to n l))
  = Z.max 0 (Z.of_nat (List.length l) + n).
Proof.
  intros Hn. unfold Py.slice_to.
  destruct (n >=? 0) eqn:E; [lia|].
  rewrite length_firstn. lia.
Qed.

Lemma sorted_firstn {A} (R : A -> A -> Prop) k l :
  StronglySorted R l -> StronglySorted R (firstn k l).
Proof.
  intros H. revert k. induction H as [|x l Hs IH Hx]; intros [|k]; simpl;
    try constructor; auto.
  rewrite Forall_forall in *. intros y Hy. apply Hx.
  eapply (In_nth_error) in Hy. destruct Hy as [i Hi].
  apply nth_error_In with (n := i).
  rewrite nth_error_firstn in Hi. destruct (Nat.ltb i k); congruence.
Qed.

(** In a sorted list, what a prefix leaves out comes after all it keeps. *)
Lemma sorted_prefix_rest {A} (R : A -> A -> Prop) k l a b :
  StronglySorted R l -> In a (firstn k l) -> In b (skipn k l) -> R a b.
Proof.
  intros H. revert k. induction H as [|x l Hs IH Hx]; intros k Ha Hb.
  - destruct k; simpl in *; contradiction.
  - destruct k as [|k]; simpl in *; [contradiction|].
    destruct Ha as [<-|Ha]; [|eauto].
    rewrite Forall_forall in Hx. apply Hx.
    rewrite <- (firstn_skipn k l). apply in_or_app. now right.
Qed.

End SortFacts.

(** ** The order of cells and of groups *)

Module OrderFacts.
Import Frame Cli.

Lemma ascii_compare_lt_trans a b c :
  Ascii.compare a b = Lt -> Ascii.compare b c = Lt -> Ascii.compare a c = Lt.
Proof.
  unfold Ascii.compare. rewrite !N.compare_lt_iff. apply N.lt_trans.
Qed.

Lemma string_compare_lt_trans a : forall b c,
  String.compare a b = Lt -> String.compare b c = Lt ->
  String.compare a c = Lt.
Proof.
  induction a as [|x a IH]; intros [|y b] [|z c]; simpl; try congruence.
  destruct (Ascii.compare x y) eqn:Hxy; try congruence;
    destruct (Ascii.compare y z) eqn:Hyz; try congruence; intros H1 H2.
  - apply Ascii.compare_eq_iff in Hxy, Hyz. subst.
    rewrite (proj2 (N.compare_eq_iff _ _) eq_refl : Ascii.compare z z = Eq).
    eauto.
  - apply Ascii.compare_eq_iff in Hxy. subst. now rewrite Hyz.
  - apply Ascii.compare_eq_iff in Hyz. subst. now rewrite Hxy.
  - now rewrite (ascii_compare_lt_trans _ _ _ Hxy Hyz).
Qed.

Lemma string_compare_refl a : String.compare a a = Eq.
Proof.
  induction a as [|x a IH]; simpl; auto.
  now rewrite (proj2 (N.compare_eq_iff _ _) eq_refl : Ascii.compare x x = Eq).
Qed.

Lemma value_compare_antisym a b :
  value_compare a b = CompOpp (value_compare b a).
Proof.
  destruct a, b; simpl; auto using String.compare_antisym, Z.compare_antisym.
Qed.

Lemma value_compare_eq a b : value_compare a b = Eq -> a = b.
Proof.
  destruct a, b; simpl; try discriminate; auto; intros H.
  - f_equal. now apply String.compare_eq_iff.
  - f_equal. now apply Z.compare_eq.
  - f_equal. now apply Z.compare_eq.
Qed.

Lemma value_compare_refl a : value_compare a a = Eq.
Proof.
  destruct a; simpl; auto using string_compare_refl, Z.compare_refl.
Qed.

Lemma value_compare_lt_trans a b c :
  value_compare a b = Lt -> value_compare b c = Lt -> value_compare a c = Lt.
Proof.
  destruct a, b, c; simpl; intros H1 H2;
    try discriminate; try reflexivity;
    try (now apply (string_compare_lt_trans _ _ _ H1 H2));
    rewrite ?Z.compare_lt_iff in *; lia.
Qed.

Lemma value_leb_total a b : value_leb a b = true \/ value_leb b a = true.
Proof.
  unfold value_leb. rewrite (value_compare_antisym b a).
  destruct (value_compare a b); simpl; auto.
Qed.

Lemma value_leb_trans a b c :
  value_leb a b = true -> value_leb b c = true -> value_leb a c = true.
Proof.
  unfold value_leb.
  destruct (value_compare a b) eqn:Hab; try discriminate;
    destruct (value_compare b c) eqn:Hbc; try discriminate; intros _ _.
  - apply value_compare_eq in Hab, Hbc. subst. now rewrite value_compare_refl.
  - apply value_compare_eq in Hab. subst. now rewrite Hbc.
  - apply value_compare_eq in Hbc. subst. now rewrite Hab.
  - now rewrite (value_compare_lt_trans _ _ _ Hab Hbc).
Qed.

Lemma value_leb_antisym a b :
  value_leb a b = true -> value_leb b a = true -> a = b.
Proof.
  unfold value_leb. rewrite (value_compare_antisym b a).
  destruct (value_compare a b) eqn:E; simpl; try discriminate; intros _ _.
  now apply value_compare_eq.
Qed.

Lemma value_eqb_eq a b : value_eqb a b = true <-> a = b.
Proof.
  destruct a, b; simpl; split; try discriminate; auto; intros H.
  - f_equal. now apply String.eqb_eq.
  - injection H as ->. apply String.eqb_refl.
  - f_equal. now apply Z.eqb_eq.
  - injection H as ->. apply Z.eqb_refl.
  - f_equal. now apply Z.eqb_eq.
  - injection H as ->. apply Z.eqb_refl.
Qed.

Lemma top_before_events a b : top_before a b = true -> events b <= events a.
Proof.
  unfold top_before. destruct (Z.compare_spec (events b) (events a));
    intros; try discriminate; lia.
Qed.

Lemma bytes_compare_antisym a b :
  bytes_compare a b = CompOpp (bytes_compare b a).
Proof.
  unfold bytes_compare. destruct (bytes a), (bytes b); simpl; auto.
  apply Z.compare_antisym.
Qed.

Lemma bytes_compare_eq a b : bytes_compare a b = Eq -> bytes a = bytes b.
Proof.
  unfold bytes_compare. destruct (bytes a), (bytes b); try discriminate; auto.
  intros H. apply Z.compare_eq in H. now subst.
Qed.

Lemma bytes_compare_trans a b c :
  bytes_compare a b <> Gt -> bytes_compare b c <> Gt ->
  bytes_compare a c <> Gt
  /\ (bytes_compare a c = Eq ->
      bytes_compare a b = Eq /\ bytes_compare b c = Eq).
Proof.
  unfold bytes_compare.
  destruct (bytes a) as [x|], (bytes b) as [y|], (bytes c) as [z|];
    try congruence; try (split; congruence);
    try (intros _ _; split; [congruence | auto]).
  destruct (Z.compare_spec y x) as [E1|E1|E1],
    (Z.compare_spec z y) as [E2|E2|E2],
    (Z.compare_spec z x) as [E3|E3|E3]; intros A B;
    try congruence; try lia;
    (split; [congruence | intros C; split; congruence || lia]).
Qed.

Lemma top_before_total a b : top_before a b = true \/ top_before b a = true.
Proof.
  unfold top_before.
  rewrite (Z.compare_antisym (events b) (events a)).
  destruct (events b ?= events a) eqn:E; simpl; auto.
  rewrite (bytes_compare_antisym b a).
  destruct (bytes_compare a b); simpl; auto using value_leb_total.
Qed.

Lemma top_before_trans a b c :
  top_before a b = true -> top_before b c = true -> top_before a c = true.
Proof.
  unfold top_before.
  destruct (Z.compare_spec (events b) (events a)) as [Hab|Hab|Hab];
    try discriminate;
    destruct (Z.compare_spec (events c) (events b)) as [Hbc|Hbc|Hbc];
    try discriminate;
    destruct (Z.compare_spec (events c) (events a)) as [Hac|Hac|Hac];
    try lia; auto.
  intros H1 H2.
  assert (B1 : bytes_compare a b <> Gt)
    by (destruct (bytes_compare a b); congruence).
  assert (B2 : bytes_compare b c <> Gt)
    by (destruct (bytes_compare b c); congruence).
  destruct (bytes_compare_trans a b c B1 B2) as [B3 B4].
  destruct (bytes_compare a c) eqn:Eac; try congruence.
  destruct (B4 eq_refl) as [Eab Ebc]. rewrite Eab in H1. rewrite Ebc in H2.
  eauto using value_leb_trans.
Qed.

Lemma top_before_antisym a b :
  top_before a b = true -> top_before b a = true -> a = b.
Proof.
  unfold top_before. intros H1 H2.
  destruct (Z.compare_spec (events b) (events a)) as [He|He|He];
    destruct (Z.compare_spec (events a) (events b)) as [He'|He'|He'];
    try discriminate; try lia.
  rewrite (bytes_compare_antisym b a) in H2.
  destruct (bytes_compare a b) eqn:Eb; simpl in *; try discriminate.
  apply bytes_compare_eq in Eb.
  pose proof (value_leb_antisym _ _ H1 H2) as Hk.
  destruct a, b; simpl in *; congruence.
Qed.

End OrderFacts.

(** ** Grouping *)

Module GroupFacts.
Import Frame OrderFacts.

Lemma value_eqb_refl a : value_eqb a a = true.
Proof. now apply value_eqb_eq. Qed.

Lemma value_eqb_sym a b : value_eqb a b = value_eqb b a.
Proof.
  destruct (value_eqb a b) eqn:E; symmetry.
  - apply value_eqb_eq in E. subst. apply value_eqb_refl.
  - destruct (value_eqb b a) eqn:E'; auto.
    apply value_eqb_eq in E'. subst. now rewrite value_eqb_refl in E.
Qed.

Lemma events_of_bump k' k b gs :
  events_of k' (bump k b gs)
  = events_of k' gs + (if value_eqb k' k then 1 else 0).
Proof.
  unfold events_of, find_group.
  induction gs as [|g gs IH]; simpl.
  - destruct (value_eqb k' k); simpl; lia.
  - destruct (value_eqb k (key g)) eqn:E; simpl.
    + apply value_eqb_eq in E. subst k.
      destruct (value_eqb k' (key g)); simpl; lia.
    + destruct (value_eqb k' (key g)) eqn:E'; simpl; auto.
      apply value_eqb_eq in E'. subst k'.
      rewrite value_eqb_sym, E. lia.
Qed.

Lemma keys_bump k b gs :
  map key (bump k b gs)
  = if existsb (fun g => value_eqb k (key g)) gs
    then map key gs else (map key gs ++ [k])%list.
Proof.
  induction gs as [|g gs IH]; simpl; auto.
  destruct (value_eqb k (key g)); simpl; auto.
  rewrite IH. now destruct (existsb _ gs).
Qed.

Lemma nodup_bump k b gs :
  NoDup (map key gs) -> NoDup (map key (bump k b gs)).
Proof.
  intros H. rewrite keys_bump.
  destruct (existsb _ gs) eqn:E; auto.
  apply NoDup_app; auto.
  - repeat constructor. simpl. tauto.
  - intros x Hx [<-|[]].
    apply in_map_iff in Hx as (g & <- & Hg).
    assert (existsb (fun g0 => value_eqb (key g) (key g0)) gs = true)
      by (apply existsb_exists; exists g; split; auto using value_eqb_refl).
    congruence.
Qed.

Lemma positive_bump k b gs :
  Forall (fun g => 1 <= events g) gs ->
  Forall (fun g => 1 <= events g) (bump k b gs).
Proof.
  induction 1 as [|g gs Hg Hgs IH]; simpl.
  - repeat constructor. simpl. lia.
  - destruct (value_eqb k (key g)); constructor; simpl; auto; lia.
Qed.

Section GroupBy.
Variable column : string.
Variable bytes_column : option string.

Let step := fun gs r =>
  bump (cell column r)
       (option_map (fun c => int_or_zero (cell c r)) bytes_column) gs.

Lemma fold_events k rs : forall gs,
  events_of k (fold_left step rs gs)
  = events_of k gs + count_key column k rs.
Proof.
  unfold count_key.
  induction rs as [|r rs IH]; intros gs; simpl; [lia|].
  rewrite IH. unfold step. rewrite events_of_bump.
  rewrite (value_eqb_sym k).
  destruct (value_eqb (cell column r) k); cbn [List.length]; lia.
Qed.

Lemma fold_nodup rs : forall gs,
  NoDup (map key gs) -> NoDup (map key (fold_left step rs gs)).
Proof.
  induction rs as [|r rs IH]; intros gs H; simpl; auto.
  apply IH. now apply nodup_bump.
Qed.

Lemma fold_positive rs : forall gs,
  Forall (fun g => 1 <= events g) gs ->
  Forall (fun g => 1 <= events g) (fold_left step rs gs).
Proof.
  induction rs as [|r rs IH]; intros gs H; simpl; auto.
  apply IH. now apply positive_bump.
Qed.

Lemma group_by_nodup rs :
  NoDup (map key (group_by column bytes_column rs)).
Proof. apply fold_nodup. constructor. Qed.

Lemma group_by_events_of k rs :
  events_of k (group_by column bytes_column rs) = count_key column k rs.
Proof. apply (fold_events k rs []). Qed.

Lemma find_group_in gs g :
  NoDup (map key gs) -> In g gs -> find_group (key g) gs = Some g.
Proof.
  unfold find_group. induction gs as [|h gs IH]; simpl; [tauto|].
  intros Hn [->|Hg].
  - now rewrite value_eqb_refl.
  - inversion Hn as [|? ? Hh Hn']; subst.
    destruct (value_eqb (key g) (key h)) eqn:E; auto.
    apply value_eqb_eq in E. exfalso. apply Hh. rewrite <- E.
    now apply in_map.
Qed.

(** Each group counts the rows that carry its key, and there is at
    least one. *)
Lemma group_by_events g rs :
  In g (group_by column bytes_column rs) ->
  events g = count_key column (key g) rs /\ 1 <= events g.
Proof.
  intros Hg. split.
  - rewrite <- group_by_events_of. unfold events_of.
    now rewrite (find_group_in _ _ (group_by_nodup rs) Hg).
  - pose proof (fold_positive rs [] (Forall_nil _)) as H.
    rewrite Forall_forall in H. now apply H.
Qed.

(** Each value of the column, null included, has its group. *)
Lemma group_by_complete r rs :
  In r rs ->
  exists g, In g (group_by column bytes_column rs)
            /\ key g = cell column r.
Proof.
  intros Hr.
  assert (Hc : 1 <= count_key column (cell column r) rs).
  { unfold count_key.
    assert (In r (filter (fun r' => value_eqb (cell column r')
                                              (cell column r)) rs))
      by (apply filter_In; split; auto using value_eqb_refl).
    destruct (filter _ rs); simpl in *; [tauto | lia]. }
  rewrite <- group_by_events_of in Hc. unfold events_of in Hc.
  destruct (find_group _ _) as [g|] eqn:F; [|lia].
  unfold find_group in F. apply find_some in F as [Hg Hk].
  apply value_eqb_eq in Hk. eauto.
Qed.

Lemma group_by_key_in g rs :
  In g (group_by column bytes_column rs) ->
  exists r, In r rs /\ cell column r = key g.
Proof.
  intros Hg. destruct (group_by_events g rs Hg) as [He Hp].
  rewrite He in Hp. unfold count_key in Hp.
  destruct (filter _ rs) as [|r l] eqn:F; simpl in Hp; [lia|].
  assert (Hr : In r (filter (fun r => value_eqb (cell column r) (key g))
                            rs)) by (rewrite F; now left).
  apply filter_In in Hr as [Hr Hk]. apply value_eqb_eq in Hk. eauto.
Qed.
End GroupBy.

(** The events of the groups add up to the number of rows. *)
Lemma bump_total k b gs :
  fold_right Z.add 0 (map events (bump k b gs))
  = fold_right Z.add 0 (map events gs) + 1.
Proof.
  induction gs as [|g gs IH]; simpl; [lia|].
  destruct (value_eqb k (key g)); simpl; lia.
Qed.

Lemma group_by_total column bytes_column rs :
  fold_right Z.add 0 (map events (group_by column bytes_column rs))
  = Z.of_nat (List.length rs).
Proof.
  unfold group_by.
  assert (G : forall gs,
             fold_right Z.add 0
               (map events
                  (fold_left
                     (fun gs r =>
                        bump (cell column r)
                             (option_map
                                (fun c => int_or_zero (cell c r))
                                bytes_column) gs) rs gs))
             = fold_right Z.add 0 (map events gs)
               + Z.of_nat (List.length rs)).
  { induction rs as [|r rs IH]; intros gs; simpl List.length; simpl fold_left.
    - lia.
    - rewrite IH, bump_total. lia. }
  rewrite G. simpl. lia.
Qed.

End GroupFacts.

(** ** The order of floats *)

Module FloatFacts.
Import Frame.

Lemma SFcompare_refl f : f <> S754_nan -> SFcompare f f = Some Eq.
Proof.
  destruct f as [s|s| |s m e]; simpl; try congruence; intros _.
  - now destruct s.
  - rewrite Z.compare_refl, Pos.compare_cont_refl. now destruct s.
Qed.

Lemma is_nan_spec x :
  PrimFloat.is_nan x = match Prim2SF x with S754_nan => true | _ => false end.
Proof.
  unfold PrimFloat.is_nan. rewrite FloatAxioms.eqb_spec. unfold SFeqb.
  destruct (Prim2SF x) eqn:E; try reflexivity;
    rewrite SFcompare_refl by discriminate; reflexivity.
Qed.

Lemma float_compare_key x y :
  float_compare x y = key_compare (float_key x) (float_key y).
Proof.
  unfold float_compare, float_key.
  rewrite FloatAxioms.compare_spec, !is_nan_spec.
  destruct (Prim2SF x) as [s1|s1| |s1 m1 e1],
           (Prim2SF y) as [s2|s2| |s2 m2 e2];
    try destruct s1; try destruct s2; simpl; try reflexivity.
  - rewrite Z.compare_opp, (Z.compare_antisym e1 e2).
    destruct (e1 ?= e2); simpl; try reflexivity.
    unfold Pos.compare. now destruct (Pos.compare_cont Eq m1 m2).
  - unfold Pos.compare. destruct (e1 ?= e2); simpl; try reflexivity.
    now destruct (Pos.compare_cont Eq m1 m2).
Qed.

Lemma key_compare_antisym a b :
  key_compare a b = CompOpp (key_compare b a).
Proof.
  destruct a as [[a1 a2] a3], b as [[b1 b2] b3]. simpl.
  rewrite (Z.compare_antisym b1 a1), (Z.compare_antisym b2 a2),
    (Z.compare_antisym b3 a3).
  destruct (b1 ?= a1); simpl; auto. destruct (b2 ?= a2); simpl; auto.
Qed.

Lemma key_compare_le a1 a2 a3 b1 b2 b3 :
  key_compare (a1, a2, a3) (b1, b2, b3) <> Gt
  <-> (a1 < b1 \/ (a1 = b1 /\ (a2 < b2 \/ (a2 = b2 /\ a3 <= b3)))).
Proof.
  simpl.
  destruct (Z.compare_spec a1 b1) as [E1|E1|E1];
    destruct (Z.compare_spec a2 b2) as [E2|E2|E2];
    destruct (Z.compare_spec a3 b3) as [E3|E3|E3];
    split; intros H; try lia; try congruence.
Qed.

Lemma key_compare_eq a1 a2 a3 b1 b2 b3 :
  key_compare (a1, a2, a3) (b1, b2, b3) = Eq
  <-> (a1 = b1 /\ a2 = b2 /\ a3 = b3).
Proof.
  simpl.
  destruct (Z.compare_spec a1 b1) as [E1|E1|E1];
    destruct (Z.compare_spec a2 b2) as [E2|E2|E2];
    destruct (Z.compare_spec a3 b3) as [E3|E3|E3];
    split; intros H; try lia; try congruence.
Qed.

Lemma key_compare_trans a b c :
  key_compare a b <> Gt -> key_compare b c <> Gt ->
  key_compare a c <> Gt
  /\ (key_compare a c = Eq ->
      key_compare a b = Eq /\ key_compare b c = Eq).
Proof.
  destruct a as [[a1 a2] a3], b as [[b1 b2] b3], c as [[c1 c2] c3].
  rewrite !key_compare_le, !key_compare_eq. lia.
Qed.

Lemma float_compare_antisym x y :
  float_compare x y = CompOpp (float_compare y x).
Proof. rewrite !float_compare_key. apply key_compare_antisym. Qed.

Lemma float_compare_trans x y z :
  float_compare x y <> Gt -> float_compare y z <> Gt ->
  float_compare x z <> Gt
  /\ (float_compare x z = Eq ->
      float_compare x y = Eq /\ float_compare y z = Eq).
Proof. rewrite !float_compare_key. apply key_compare_trans. Qed.

(** On floats that are not NaN the order is that of [<] and [==]. *)
Lemma float_compare_lt x y :
  PrimFloat.is_nan x = false -> PrimFloat.is_nan y = false ->
  (float_compare x y = Lt <-> PrimFloat.ltb x y = true)
  /\ (float_compare x y = Eq <-> PrimFloat.eqb x y = true).
Proof.
  rewrite !is_nan_spec. unfold float_compare.
  rewrite FloatAxioms.ltb_spec, FloatAxioms.eqb_spec,
    FloatAxioms.compare_spec. unfold SFltb, SFeqb.
  destruct (Prim2SF x) eqn:Ex; try discriminate;
    destruct (Prim2SF y) eqn:Ey; try discriminate; intros _ _;
    match goal with
    | |- context [SFcompare ?a ?b] =>
        destruct (SFcompare a b) as [[]|] eqn:E; simpl;
        try (split; split; congruence);
        simpl in E; try discriminate
    end.
Qed.

Import Cli.

Lemma noise_before_total a b :
  noise_before a b = true \/ noise_before b a = true.
Proof.
  unfold noise_before. rewrite (float_compare_antisym (snd a) (snd b)).
  destruct (float_compare (snd b) (snd a)); simpl; auto. lia.
Qed.

Lemma noise_before_trans a b c :
  noise_before a b = true -> noise_before b c = true ->
  noise_before a c = true.
Proof.
  unfold noise_before. intros H1 H2.
  assert (B1 : float_compare (snd c) (snd b) <> Gt)
    by (destruct (float_compare (snd c) (snd b)); congruence).
  assert (B2 : float_compare (snd b) (snd a) <> Gt)
    by (destruct (float_compare (snd b) (snd a)); congruence).
  destruct (float_compare_trans _ _ _ B1 B2) as [B3 B4].
  destruct (float_compare (snd c) (snd a)) eqn:E; try congruence.
  destruct (B4 eq_refl) as [E1 E2]. rewrite E1 in H2. rewrite E2 in H1.
  lia.
Qed.

End FloatFacts.

(** ** The three aggregations *)

Module CliFacts.
Import Frame Cli TableSpec SortFacts OrderFacts GroupFacts FloatFacts.

Lemma top_aggregation_prefix frame column bytes_column top :
  exists k,
    top_aggregation frame column bytes_column top
    = firstn k (sort top_before (top_groups frame column bytes_column)).
Proof. apply slice_to_firstn. Qed.

Lemma top_sorted frame column bytes_column :
  StronglySorted (rel top_before)
                 (sort top_before (top_groups frame column bytes_column)).
Proof.
  apply sort_sorted; [exact top_before_total | exact top_before_trans].
Qed.

Lemma top_aggregation_sorted frame column bytes_column top :
  StronglySorted (rel top_before)
                 (top_aggregation frame column bytes_column top).
Proof.
  destruct (top_aggregation_prefix frame column bytes_column top) as [k ->].
  apply sorted_firstn, top_sorted.
Qed.

Lemma top_aggregation_incl frame column bytes_column top g :
  In g (top_aggregation frame column bytes_column top) ->
  In g (top_groups frame column bytes_column).
Proof.
  destruct (top_aggregation_prefix frame column bytes_column top) as [k ->].
  intros H.
  apply (Permutation_in _ (Permutation_sym (sort_perm top_before _))).
  rewrite <- (firstn_skipn k (sort top_before _)).
  apply in_or_app. now left.
Qed.

(** A group left out has no more events than any group kept. *)
Lemma top_aggregation_excluded frame column bytes_column top g h :
  In g (top_groups frame column bytes_column) ->
  ~ In g (top_aggregation frame column bytes_column top) ->
  In h (top_aggregation frame column bytes_column top) ->
  events g <= events h.
Proof.
  destruct (top_aggregation_prefix frame column bytes_column top) as [k ->].
  intros Hg Hout Hh.
  apply (Permutation_in _ (sort_perm top_before _)) in Hg.
  rewrite <- (firstn_skipn k (sort top_before _)) in Hg.
  apply in_app_or in Hg as [Hg|Hg]; [contradiction|].
  apply top_before_events.
  exact (sorted_prefix_rest _ k _ h g (top_sorted _ _ _) Hh Hg).
Qed.

Lemma sorted_weaken {A} (R S : A -> A -> Prop) l :
  (forall a b, R a b -> S a b) -> StronglySorted R l -> StronglySorted S l.
Proof.
  intros HRS. induction 1 as [|x l Hs IH Hx]; constructor; auto.
  rewrite Forall_forall in *. auto.
Qed.

(** The scenario: whatever the order in which the groups arrive. *)
Lemma scenario_sorted gs :
  Permutation gs scenario_groups -> sort top_before gs = scenario_groups.
Proof.
  intros Hp.
  rewrite (sort_unique top_before top_before_total top_before_trans
                       gs scenario_groups Hp).
  - reflexivity.
  - intros a b _ _. apply top_before_antisym.
Qed.

Lemma count_key_filter column k rs :
  k <> Null ->
  count_key column k
            (filter (fun r => negb (is_null (cell column r))) rs)
  = count_key column k rs.
Proof.
  intros Hk. unfold count_key. f_equal. f_equal.
  induction rs as [|r rs IH]; simpl; auto.
  destruct (cell column r) eqn:C; simpl; rewrite ?C, ?IH; auto.
  destruct k; simpl; auto. congruence.
Qed.

Lemma trend_table_perm frame :
  Permutation
    (group_by "minute_bucket" None
              (filter (fun r => negb (is_null (cell "minute_bucket" r)))
                      (Frame.rows frame)))
    (trend_table frame).
Proof. apply sort_perm. Qed.

(** The table of the trend holds the non-null buckets of the frame, each
    once, each with the number of its rows. *)
Lemma trend_table_keys frame g :
  In g (trend_table frame) ->
  key g <> Null
  /\ (exists r, In r (Frame.rows frame) /\ cell "minute_bucket" r = key g)
  /\ events g = count_key "minute_bucket" (key g) (Frame.rows frame).
Proof.
  intros Hg.
  apply (Permutation_in _ (Permutation_sym (trend_table_perm frame))) in Hg.
  destruct (group_by_key_in _ _ _ _ Hg) as (r & Hr & Hk).
  apply filter_In in Hr as [Hr Hn].
  destruct (group_by_events _ _ _ _ Hg) as [He _].
  assert (Hnn : key g <> Null).
  { intros E. rewrite <- Hk in E. now rewrite E in Hn. }
  split; [exact Hnn|]. split; [eauto|].
  rewrite He. now apply count_key_filter.
Qed.

Lemma trend_table_complete frame r :
  In r (Frame.rows frame) -> cell "minute_bucket" r <> Null ->
  exists g, In g (trend_table frame) /\ key g = cell "minute_bucket" r.
Proof.
  intros Hr Hn.
  assert (Hf : In r (filter (fun r => negb (is_null (cell "minute_bucket" r)))
                            (Frame.rows frame))).
  { apply filter_In. split; auto.
    destruct (cell "minute_bucket" r); simpl; auto; congruence. }
  destruct (group_by_complete "minute_bucket" None _ _ Hf) as (g & Hg & Hk).
  exists g. split; auto.
  now apply (Permutation_in _ (trend_table_perm frame)).
Qed.

Lemma trend_table_nodup frame : NoDup (map key (trend_table frame)).
Proof.
  eapply Permutation_NoDup;
    [apply Permutation_map, trend_table_perm | apply group_by_nodup].
Qed.

Lemma strictly_sorted (l : list group) :
  NoDup (map key l) ->
  StronglySorted (rel (fun a b => value_leb (key a) (key b))) l ->
  StronglySorted (fun a b => value_compare (key a) (key b) = Lt) l.
Proof.
  intros Hn Hs. induction Hs as [|x l Hs IH Hx]; constructor.
  - apply IH. now inversion Hn.
  - inversion Hn as [|? ? Hnx _]; subst.
    rewrite Forall_forall in *. intros y Hy.
    specialize (Hx y Hy). unfold rel, value_leb in Hx.
    destruct (value_compare (key x) (key y)) eqn:E; try discriminate; auto.
    apply value_compare_eq in E. exfalso. apply Hnx. rewrite E.
    now apply in_map.
Qed.

(** The buckets of the table go strictly up. *)
Lemma trend_table_ascending frame :
  StronglySorted (fun a b => value_compare (key a) (key b) = Lt)
                 (trend_table frame).
Proof.
  apply strictly_sorted; [apply trend_table_nodup|].
  apply sort_sorted.
  - intros a b. apply value_leb_total.
  - intros a b c. apply value_leb_trans.
Qed.

Lemma all_rows_forall2 {A B} (f : A -> option B) l rs :
  all_rows f l = Some rs -> Forall2 (fun x y => f x = Some y) l rs.
Proof.
  revert rs. induction l as [|x l IH]; simpl; intros rs H.
  - injection H as <-. constructor.
  - destruct (f x) eqn:F; [|discriminate].
    destruct (all_rows f l); [|discriminate].
    injection H as <-. constructor; auto.
Qed.

Lemma all_rows_some {A B} (f : A -> option B) l :
  (forall x, In x l -> f x <> None) -> exists rs, all_rows f l = Some rs.
Proof.
  induction l as [|x l IH]; simpl; intros H; eauto.
  destruct (f x) eqn:F; [|exfalso; apply (H x); auto].
  destruct IH as [rs ->]; eauto.
Qed.

Lemma forall2_map {A B} (f : A -> B) (R : A -> B -> Prop) l :
  (forall x, R x (f x)) -> Forall2 R l (map f l).
Proof. intros H. induction l; simpl; constructor; auto. Qed.

Lemma forall2_firstn {A B} (R : A -> B -> Prop) k l rs :
  Forall2 R l rs -> Forall2 R (firstn k l) (firstn k rs).
Proof.
  intros H. revert k. induction H; intros [|k]; simpl; constructor; auto.
Qed.

Lemma trend_rows_defined frame :
  buckets_are_datetimes frame ->
  exists rs, all_rows trend_row_of (trend_table frame) = Some rs.
Proof.
  intros Hb. apply all_rows_some. intros g Hg.
  destruct (trend_table_keys frame g Hg) as (Hn & (r & Hr & Hk) & _).
  specialize (Hb r Hr). rewrite Hk in Hb. unfold trend_row_of.
  destruct (key g); simpl in Hb; try discriminate; try congruence.
  destruct (to_datetime us); congruence.
Qed.

Lemma trend_table_empty frame :
  (forall r, In r (Frame.rows frame) -> cell "minute_bucket" r = Null) ->
  trend_table frame = [].
Proof.
  intros H. destruct (trend_table frame) as [|g l] eqn:E; auto.
  destruct (trend_table_keys frame g) as (Hn & (r & Hr & Hk) & _).
  - rewrite E. now left.
  - rewrite (H r Hr) in Hk. congruence.
Qed.

Lemma trend_table_nonempty frame r :
  In r (Frame.rows frame) -> cell "minute_bucket" r <> Null ->
  trend_table frame <> [].
Proof.
  intros Hr Hn E.
  destruct (trend_table_complete frame r Hr Hn) as (g & Hg & _).
  now rewrite E in Hg.
Qed.

(** Noise candidates *)
Lemma noise_sorted frame column threshold :
  StronglySorted (rel noise_before)
                 (noise_aggregation frame column threshold).
Proof.
  apply sort_sorted; [exact noise_before_total | exact noise_before_trans].
Qed.

Lemma noise_rows frame column threshold s :
  collect_noise_candidates frame column threshold = Some s ->
  Cli.rows s = map noise_row_of (noise_aggregation frame column threshold).
Proof.
  unfold collect_noise_candidates.
  destruct (threshold <=? 0)%float; [discriminate|].
  destruct (negb (has_column column frame)); [discriminate|].
  destruct (height frame =? 0); [discriminate|]. cbv zeta.
  destruct (noise_aggregation frame column threshold) eqn:E; [discriminate|].
  intros H. injection H as <-. reflexivity.
Qed.

Lemma noise_aggregation_in frame column threshold gs :
  In gs (noise_aggregation frame column threshold)
  <-> (In (fst gs) (group_by column None (Frame.rows frame))
       /\ snd gs = share_of (height frame) (fst gs)
       /\ reaches frame threshold (fst gs) = true).
Proof.
  unfold noise_aggregation, reaches, cutoff. split.
  - intros H.
    apply (Permutation_in _ (Permutation_sym (sort_perm _ _))) in H.
    apply filter_In in H as [H Hc].
    apply in_map_iff in H as (g & <- & Hg). simpl in *. auto.
  - intros (Hg & Hs & Hc).
    apply (Permutation_in _ (sort_perm _ _)).
    apply filter_In. split; auto.
    apply in_map_iff. exists (fst gs). split; auto.
    destruct gs; simpl in *; congruence.
Qed.

End CliFacts.

(* ========================================================================= *)
(** * The claims about aggregation                                            *)
(* ========================================================================= *)

(** Evaluate the call a statement inspects. *)
Ltac run_call :=
  match goal with
  | |- match ?c with _ => _ end =>
      let v := eval vm_compute in c in
      replace c with v by (vm_compute; reflexivity); cbv beta iota
  end.

Section AggregationClaims.
Import Frame Cli TableSpec SortFacts OrderFacts GroupFacts FloatFacts CliFacts.




(** C3, as the code has it.  [collect_noise_candidates] returns nothing
    when the threshold is at most 0, when the column is missing and when
    the table has no row.  When it returns a section (for a grouping column
    named apart from the aggregates), its rows are exactly the groups whose
    number of events reaches the cutoff
    [total_events * (threshold / 100.0)], however many they are, each with
    its share [events / total_events * 100.0], sorted by share descending,
    then by events descending. *)
Theorem noise_candidates_reach_cutoff frame column threshold :
  ((threshold <=? 0)%float = true ->
   collect_noise_candidates frame column threshold = None)
  /\ (has_column column frame = false ->
      collect_noise_candidates frame column threshold = None)
  /\ (Frame.rows frame = [] ->
      collect_noise_candidates frame column threshold = None)
  /\ (forall s,
         other_than noise_aggregates column = true ->
         collect_noise_candidates frame column threshold = Some s ->
         let kept := noise_aggregation frame column threshold in
         Cli.rows s = map noise_row_of kept
         /\ (forall gs,
                In gs kept
                <-> (In (fst gs) (group_by column None (Frame.rows frame))
                     /\ snd gs = share_of (height frame) (fst gs)
                     /\ reaches frame threshold (fst gs) = true))
         /\ StronglySorted (rel noise_before) kept).
Proof.
  unfold collect_noise_candidates.
  split; [now intros ->|].
  split; [intros ->; now destruct (threshold <=? 0)%float|].
  split.
  { intros E. unfold height. rewrite E. simpl.
    destruct (threshold <=? 0)%float; auto.
    now destruct (negb (has_column column frame)). }
  intros s _ H. cbv zeta.
  split; [now apply noise_rows|].
  split; [apply noise_aggregation_in | apply noise_sorted].
Qed.

Lemma noise_candidates_reach_cutoff_witness :
  other_than noise_aggregates "rule_name" = true
  /\ (exists s, collect_noise_candidates thirds_frame "rule_name" 30 = Some s)
  /\ StronglySorted (rel noise_before)
                    (noise_aggregation thirds_frame "rule_name" 30).
Proof.
  split; [reflexivity|].
  split; [eexists; vm_compute; reflexivity|].
  exact (proj2 (proj2
           (proj2 (proj2 (proj2 (noise_candidates_reach_cutoff
                                   thirds_frame "rule_name" 30)))
                  _ eq_refl eq_refl))).
Defined.

(** C3, as stated, fails: with three rows of three keys and the threshold
    100/3, every group is returned (1 >= 3 * (threshold / 100.0) = 1.0)
    with the share 1/3*100.0, which is below the threshold. *)
Lemma noise_share_below_threshold :
  match collect_noise_candidates thirds_frame "rule_name" (100 / 3)%float
  with
  | Some s =>
      List.length (Cli.rows s) = 3%nat
      /\ forallb (fun r => (noise_share r <? 100 / 3)%float) (Cli.rows s)
         = true
  | None => False
  end.
Proof. run_call. split; [reflexivity | vm_compute; reflexivity]. Qed.





(** A missing column gives nothing, and so does the table of a run that
    parsed no record, which has no column. *)
Lemma top_counts_missing_column frame column bytes_column top title :
  has_column column frame = false ->
  collect_top_counts frame column bytes_column top title = None.
Proof. unfold collect_top_counts. now intros ->. Qed.

Lemma top_counts_empty_table column bytes_column top title :
  collect_top_counts Frame.empty column bytes_column top title = None.
Proof. reflexivity. Qed.



End AggregationClaims.
